(** * Runtime identity and call interposition layer of the Linux loader

    A shallow embedding of [linux-loader.js], the main entry point, and of
    the parts of [stubs/frame-fix/frame-fix-wrapper.js] that repeat it
    (classifier, identity accessors, move fallback), followed by the
    properties of the caller-origin classifier, the identity accessors,
    the module-load interception, the handler interception, the
    window-constructor interception, the cross-device move fallback and
    the top-level error guard.

    Strings of the host language are modelled as [string]; every pattern
    the loader searches for is plain ASCII, so substring tests on the byte
    sequence and on the UTF-16 sequence agree.  Objects used as records of
    named fields are finite maps; objects whose identity matters are
    references.  What belongs to the runtime and not to the loader (the
    file system, the module loader, the handler registry) is either a
    parameter of the embedded function or a small model kept apart from
    it. *)

From Stdlib Require Import Ascii String List Bool ZArith Lia.
From stdpp Require Import gmap strings list fin_maps.

Set Default Proof Using "Type".
Set Warnings "-register-all".

(** ** String primitives of the host language *)

Module JsString.

(** The line feed, written ['\n'] in the source. *)
Definition LF : ascii := Ascii.ascii_of_nat 10.
Definition NL : string := String LF EmptyString.

(** [s.includes(pat)]: [pat] occurs somewhere in [s]. *)
Fixpoint includes (s pat : string) : bool :=
  String.prefix pat s ||
  match s with
  | EmptyString => false
  | String _ s' => includes s' pat
  end.

(** [s.endsWith(suf)]: some suffix of [s] is [suf]. *)
Fixpoint endsWith (s suf : string) : bool :=
  String.eqb s suf ||
  match s with
  | EmptyString => false
  | String _ s' => endsWith s' suf
  end.

(** [s.split('\n')]: the pieces between line feeds (never empty). *)
Fixpoint splitLines (s : string) : list string :=
  match s with
  | EmptyString => [EmptyString]
  | String c s' =>
      if Ascii.eqb c LF then EmptyString :: splitLines s'
      else match splitLines s' with
           | [] => [String c EmptyString]
           | piece :: pieces => String c piece :: pieces
           end
  end.

(** [pieces.join('\n')]. *)
Definition joinLines (pieces : list string) : string :=
  String.concat NL pieces.

(** [c] does not occur in [s]. *)
Fixpoint lacks (c : ascii) (s : string) : bool :=
  match s with
  | EmptyString => true
  | String d s' => negb (Ascii.eqb d c) && lacks c s'
  end.

End JsString.

Import JsString.

(** ** 1. Caller-origin classifier *)

Module Classifier.

(** [isSystemCall] of [linux-loader.js]. *)
Definition isSystemCall (stack : string) : bool :=
  includes stack "node:internal" ||
  includes stack "internal/modules" ||
  includes stack "node:electron" ||
  includes stack "electron/js2c" ||
  includes stack "electron.asar" ||
  includes stack "linux-loader.js" ||
  includes stack "frame-fix-wrapper".

(** The provenance markers the disjunction above tests, in order. *)
Definition TRUSTED_MARKERS : list string :=
  [ "node:internal"; "internal/modules"; "node:electron"; "electron/js2c";
    "electron.asar"; "linux-loader.js"; "frame-fix-wrapper" ].

Inductive Origin := Trusted | Guest.

Definition classify (stack : string) : Origin :=
  if isSystemCall stack then Trusted else Guest.

End Classifier.

(** The classifier of [frame-fix-wrapper.js]: the same test without the
    loader's own file name. *)
Module WrapperClassifier.

Definition isSystemCall (stack : string) : bool :=
  includes stack "node:internal" ||
  includes stack "internal/modules" ||
  includes stack "node:electron" ||
  includes stack "electron/js2c" ||
  includes stack "electron.asar" ||
  includes stack "frame-fix-wrapper".

Definition TRUSTED_MARKERS : list string :=
  [ "node:internal"; "internal/modules"; "node:electron"; "electron/js2c";
    "electron.asar"; "frame-fix-wrapper" ].

End WrapperClassifier.

(** ** 2. Environment identity virtualization *)

Module Identity.

(** The identity a caller may observe. *)
Record Descriptor := {
  platformFamily : string;
  cpuArchitecture : string;
  osVersionString : string
}.

(** The fixed identity shown to the guest. *)
Definition VIRTUAL : Descriptor :=
  {| platformFamily := "darwin"; cpuArchitecture := "arm64";
     osVersionString := "14.0.0" |}.

(** What the loader keeps of the host at start-up: the constants
    [REAL_PLATFORM] and [REAL_ARCH].  Nothing else is captured. *)
Record Captured := { REAL_PLATFORM : string; REAL_ARCH : string }.

Definition capture (host : Descriptor) : Captured :=
  {| REAL_PLATFORM := platformFamily host;
     REAL_ARCH := cpuArchitecture host |}.

(** [new Error().stack || ''], then
    [stack.split('\n').slice(2).join('\n')]: the header line and the
    accessor's own frame are dropped. *)
Definition callerFrames (errorStack : option string) : string :=
  let stack := match errorStack with
               | Some s => s
               | None => EmptyString
               end in
  joinLines (drop 2 (splitLines stack)).

Section Accessors.
(** The classifier of the file that installs the accessors, and what
    that file captured. *)
Variable isSystemCall : string -> bool.
Variable real : Captured.

(** Getter installed on [process.platform]. *)
Definition platform_get (errorStack : option string) : string :=
  if isSystemCall (callerFrames errorStack)
  then REAL_PLATFORM real else "darwin".

(** Getter installed on [process.arch]. *)
Definition arch_get (errorStack : option string) : string :=
  if isSystemCall (callerFrames errorStack)
  then REAL_ARCH real else "arm64".

(** [os.platform] and [os.arch]; the originals are consulted at the
    time of the call. *)
Definition os_platform (originalOsPlatform : unit -> string)
    (errorStack : option string) : string :=
  if isSystemCall (callerFrames errorStack)
  then originalOsPlatform tt else "darwin".

Definition os_arch (originalOsArch : unit -> string)
    (errorStack : option string) : string :=
  if isSystemCall (callerFrames errorStack)
  then originalOsArch tt else "arm64".

(** [process.getSystemVersion = function() { return '14.0.0'; }]:
    no stack is captured. *)
Definition getSystemVersion (_ : unit) : string := "14.0.0".

(** The triple a caller observes through the three accessors. *)
Definition observed (errorStack : option string) : Descriptor :=
  {| platformFamily := platform_get errorStack;
     cpuArchitecture := arch_get errorStack;
     osVersionString := getSystemVersion tt |}.
End Accessors.

(** A call stack as the runtime prints it: a header line, then one line
    per frame, innermost first. *)
Definition stackOf (frames : list string) : option string :=
  Some (joinLines ("Error" :: frames)).

Definition accessorFrame : string :=
  "    at process.get [as platform] (/opt/claude/linux-loader.js:120:19)".

(** A read coming from the module loader of the runtime. *)
Definition runtimeStack : option string :=
  stackOf [ accessorFrame;
            "    at Module._compile (node:internal/modules/cjs/loader:1554:14)" ].

(** A read coming from the bundled application. *)
Definition guestStack : option string :=
  stackOf [ accessorFrame;
            "    at App.start (/opt/claude/app/.vite/build/index.js:10:5)" ].

Definition linuxHost : Descriptor :=
  {| platformFamily := "linux"; cpuArchitecture := "x64";
     osVersionString := "6.18.44" |}.

(** The accessors as installed by [linux-loader.js] and by
    [frame-fix-wrapper.js]. *)
Definition loaderObserved (host : Descriptor) : option string -> Descriptor :=
  observed Classifier.isSystemCall (capture host).

Definition wrapperObserved (host : Descriptor) : option string -> Descriptor :=
  observed WrapperClassifier.isSystemCall (capture host).

End Identity.


(** ** Values, errors and completions of the host language *)

Module Js.

(** An error object: the fields the loader reads. *)
Record JsError := { code : option string; message : option string }.

Definition mkError (msg : string) : JsError :=
  {| code := None; message := Some msg |}.

Definition sysError (c msg : string) : JsError :=
  {| code := Some c; message := Some msg |}.

(** How a call ends: it returns, or it throws. *)
Inductive completion (A : Type) :=
| Normal (a : A)
| Abrupt (e : JsError).
Global Arguments Normal {A} a.
Global Arguments Abrupt {A} e.

(** Data passed to and returned by handlers and constructors. *)
Inductive JsValue :=
| VUndefined
| VNull
| VBool (b : bool)
| VNum (z : Z)
| VStr (s : string)
| VObject (fields : list (string * JsValue)).

(** Conversion to boolean as done by [if], [&&] and [||]. *)
Definition truthy (v : JsValue) : bool :=
  match v with
  | VUndefined | VNull => false
  | VBool b => b
  | VNum z => negb (Z.eqb z 0)
  | VStr s => negb (String.eqb s EmptyString)
  | VObject _ => true
  end.

(** State-passing computations that may throw; the state reached so far
    survives a throw. *)
Definition M (S A : Type) : Type := S -> completion A * S.

Definition ret {S A} (a : A) : M S A := fun s => (Normal a, s).

Definition throw {S A} (e : JsError) : M S A := fun s => (Abrupt e, s).

Definition bind {S A B} (m : M S A) (k : A -> M S B) : M S B :=
  fun s => match m s with
           | (Normal a, s') => k a s'
           | (Abrupt e, s') => (Abrupt e, s')
           end.

(** [try { m } catch (err) { handler err }]. *)
Definition tryCatch {S A} (m : M S A) (handler : JsError -> M S A) : M S A :=
  fun s => match m s with
           | (Normal a, s') => (Normal a, s')
           | (Abrupt e, s') => handler e s'
           end.

End Js.

Import Js.

Notation "m ;;; k" := (bind m (fun _ => k))
  (at level 100, right associativity).

(** ** 6. Cross-filesystem move fallback *)

Module MoveFallback.

(** [err.code === 'EXDEV'] *)
Definition isEXDEV (err : JsError) : bool :=
  match code err with
  | Some c => String.eqb c "EXDEV"
  | None => false
  end.

(** Events of the two streams the asynchronous fallback listens to. *)
Inductive StreamEvent :=
| ReadError (e : JsError)
| WriteError (e : JsError)
| WriteClose.

Section Patched.
(** The state of the file system, and the primitives of the runtime
    the patch is built on. *)
Variable FS : Type.
Variable originalRenameSync : string -> string -> M FS unit.
Variable copyFileSync : string -> string -> M FS unit.
Variable unlinkSync : string -> M FS unit.

(** [fs.renameSync] as patched. *)
Definition renameSync (oldPath newPath : string) : M FS unit :=
  tryCatch (originalRenameSync oldPath newPath)
    (fun err =>
       if isEXDEV err then
         copyFileSync oldPath newPath ;;;
         unlinkSync oldPath ;;;
         ret tt
       else throw err).

(** Callback-style primitives: each reports the error it ended with
    ([None] for [null]) and the state it left.  [pipe] is
    [createReadStream(oldPath).pipe(createWriteStream(newPath))] run to
    its end: the events the two streams emitted, in order. *)
Variable originalRename : string -> string -> FS -> option JsError * FS.
Variable pipe : string -> string -> FS -> list StreamEvent * FS.
Variable unlink : string -> FS -> option JsError * FS.

(** What the caller of the asynchronous form observes: the arguments
    its callback was invoked with, oldest first. *)
Definition Calls : Type := list (option JsError).

(** The three listeners registered on the streams. *)
Definition onStreamEvent (oldPath : string) (ev : StreamEvent)
    (acc : Calls * FS) : Calls * FS :=
  let (calls, fs) := acc in
  match ev with
  | ReadError e => (calls ++ [Some e], fs)
  | WriteError e => (calls ++ [Some e], fs)
  | WriteClose =>
      let (unlinkErr, fs') := unlink oldPath fs in
      (calls ++ [None], fs')
  end.

(** [fs.rename] as patched. *)
Definition rename (oldPath newPath : string) (fs : FS) : Calls * FS :=
  let (err, fs1) := originalRename oldPath newPath fs in
  match err with
  | Some e =>
      if isEXDEV e then
        let (events, fs2) := pipe oldPath newPath fs1 in
        fold_left (fun acc ev => onStreamEvent oldPath ev acc) events ([], fs2)
      else ([Some e], fs1)
  | None => ([None], fs1)
  end.
End Patched.

(** *** The file system of the runtime

    Files are a finite map from paths to contents.  Whether an operation
    is refused by the operating system (permissions, devices, input and
    output errors) is decided outside the program; each primitive takes
    that verdict as its first argument. *)
Module NodeFs.

Abbreviation Files := (gmap string string).

Definition ENOENT : JsError := sysError "ENOENT" "no such file or directory".

Definition originalRenameSync (fault : option JsError)
    (oldPath newPath : string) : M Files unit :=
  fun fs =>
    match fault with
    | Some e => (Abrupt e, fs)
    | None =>
        match fs !! oldPath with
        | None => (Abrupt ENOENT, fs)
        | Some content => (Normal tt, <[newPath := content]> (delete oldPath fs))
        end
    end.

Definition copyFileSync (fault : option JsError)
    (src dest : string) : M Files unit :=
  fun fs =>
    match fault with
    | Some e => (Abrupt e, fs)
    | None =>
        match fs !! src with
        | None => (Abrupt ENOENT, fs)
        | Some content => (Normal tt, <[dest := content]> fs)
        end
    end.

Definition unlinkSync (fault : option JsError) (path : string) : M Files unit :=
  fun fs =>
    match fault with
    | Some e => (Abrupt e, fs)
    | None =>
        match fs !! path with
        | None => (Abrupt ENOENT, fs)
        | Some _ => (Normal tt, delete path fs)
        end
    end.

(** The callback forms report what the synchronous forms throw. *)
Definition reported {S} (m : M S unit) (s : S) : option JsError * S :=
  match m s with
  | (Normal _, s') => (None, s')
  | (Abrupt e, s') => (Some e, s')
  end.

Definition originalRename (fault : option JsError)
    (oldPath newPath : string) : Files -> option JsError * Files :=
  reported (originalRenameSync fault oldPath newPath).

Definition unlink (fault : option JsError) (path : string)
    : Files -> option JsError * Files :=
  reported (unlinkSync fault path).

(** What can go wrong while the streams run. *)
Inductive PipeFault :=
| NoPipeFault
| ReadFault (e : JsError)
| WriteFault (e : JsError).

(** Piping [src] into [dest].  Without a fault the whole content
    arrives and the write stream closes.  A failing read stream emits
    its error and leaves the write stream open on an empty file.  A
    failing write stream emits its error and is then closed. *)
Definition pipe (fault : PipeFault) (src dest : string)
    : Files -> list StreamEvent * Files :=
  fun fs =>
    match fault with
    | NoPipeFault =>
        match fs !! src with
        | Some content => ([WriteClose], <[dest := content]> fs)
        | None => ([ReadError ENOENT], <[dest := EmptyString]> fs)
        end
    | ReadFault e => ([ReadError e], <[dest := EmptyString]> fs)
    | WriteFault e => ([WriteError e; WriteClose], fs)
    end.

(** The verdicts of the operating system for one move. *)
Record Faults := {
  renameFault : option JsError;
  copyFault : option JsError;
  pipeFault : PipeFault;
  unlinkFault : option JsError
}.

(** The patched entry points over this file system. *)
Definition renameSync (env : Faults) : string -> string -> M Files unit :=
  MoveFallback.renameSync Files
    (originalRenameSync (renameFault env))
    (copyFileSync (copyFault env))
    (unlinkSync (unlinkFault env)).

Definition rename (env : Faults) : string -> string -> Files -> Calls * Files :=
  MoveFallback.rename Files
    (originalRename (renameFault env))
    (pipe (pipeFault env))
    (unlink (unlinkFault env)).

Definition EXDEV : JsError :=
  sysError "EXDEV" "cross-device link not permitted".
Definition EACCES : JsError := sysError "EACCES" "permission denied".

(** A cross-device move of a file whose deletion is refused. *)
Definition refusedDeletion : Faults :=
  {| renameFault := Some EXDEV; copyFault := None;
     pipeFault := NoPipeFault; unlinkFault := Some EACCES |}.


Definition stagedBundle : Files := {[ "/tmp/rootfs.img" := "bundle" ]}.

End NodeFs.

End MoveFallback.

(** ** 3. Resolution and substitution of components *)

Module Loader.

(** Objects are known by reference. *)
Definition Obj : Type := nat.

(** What a load returns, [module.exports]: the object created for the
    module when its code starts to run, or the value the module's code
    put in its place ([module.exports = v]). *)
Inductive Exports :=
| Ref (o : Obj)
| Replaced (v : JsValue).

(** [exports] in a condition. *)
Definition truthyExports (x : Exports) : bool :=
  match x with
  | Ref _ => true
  | Replaced v => truthy v
  end.

(** A module file on disk: the requests its top-level code issues, in
    order, the error that code throws after them, if any, and the value
    it assigns to [module.exports] at its end, if it does. *)
Record ModuleFile := {
  nested : list string;
  failsInit : option JsError;
  replaces : option JsValue
}.

(** The variables of the loader ([swiftStubCache], [loadingStub],
    [patchedElectron]) together with the part of the runtime that
    loading touches: the files, [require.cache] (a module is known by
    the reference of the object created for it), the modules whose
    exports were replaced, the next fresh reference, and the log of
    module files whose code was run (latest first). *)
Record LoaderState := {
  swiftStubCache : option Exports;
  loadingStub : bool;
  patchedElectron : option Obj;
  disk : gmap string ModuleFile;
  requireCache : gmap string Obj;
  replaced : gmap Obj JsValue;
  nextRef : Obj;
  initLog : list string
}.

Definition setSwiftStubCache (v : option Exports) (st : LoaderState) : LoaderState :=
  {| swiftStubCache := v; loadingStub := loadingStub st;
     patchedElectron := patchedElectron st; disk := disk st;
     requireCache := requireCache st; replaced := replaced st;
     nextRef := nextRef st; initLog := initLog st |}.

Definition setLoadingStub (b : bool) (st : LoaderState) : LoaderState :=
  {| swiftStubCache := swiftStubCache st; loadingStub := b;
     patchedElectron := patchedElectron st; disk := disk st;
     requireCache := requireCache st; replaced := replaced st;
     nextRef := nextRef st; initLog := initLog st |}.

Definition setRequireCache (c : gmap string Obj) (st : LoaderState) : LoaderState :=
  {| swiftStubCache := swiftStubCache st; loadingStub := loadingStub st;
     patchedElectron := patchedElectron st; disk := disk st;
     requireCache := c; replaced := replaced st;
     nextRef := nextRef st; initLog := initLog st |}.

Definition setReplaced (r : gmap Obj JsValue) (st : LoaderState) : LoaderState :=
  {| swiftStubCache := swiftStubCache st; loadingStub := loadingStub st;
     patchedElectron := patchedElectron st; disk := disk st;
     requireCache := requireCache st; replaced := r;
     nextRef := nextRef st; initLog := initLog st |}.

(** Allocation of a fresh object. *)
Definition alloc (st : LoaderState) : Obj * LoaderState :=
  (nextRef st,
   {| swiftStubCache := swiftStubCache st; loadingStub := loadingStub st;
      patchedElectron := patchedElectron st; disk := disk st;
      requireCache := requireCache st; replaced := replaced st;
      nextRef := S (nextRef st); initLog := initLog st |}).

Definition logInit (path : string) (st : LoaderState) : LoaderState :=
  {| swiftStubCache := swiftStubCache st; loadingStub := loadingStub st;
     patchedElectron := patchedElectron st; disk := disk st;
     requireCache := requireCache st; replaced := replaced st;
     nextRef := nextRef st; initLog := path :: initLog st |}.

(** [module.exports] of the module known by [o]. *)
Definition exportsOf (o : Obj) (st : LoaderState) : Exports :=
  match replaced st !! o with
  | Some v => Replaced v
  | None => Ref o
  end.

(** A load entry point; [None] when the allotted number of nested
    loads is used up. *)
Definition LoadFn : Type :=
  string -> LoaderState -> option (completion Exports * LoaderState).

(** The requests of a module's top-level code go through whatever is
    installed as [Module._load]; the first failure ends the code. *)
Fixpoint runNested (load : LoadFn) (requests : list string) (st : LoaderState)
    : option (completion unit * LoaderState) :=
  match requests with
  | [] => Some (Normal tt, st)
  | r :: rest =>
      match load r st with
      | None => None
      | Some (Abrupt e, st') => Some (Abrupt e, st')
      | Some (Normal _, st') => runNested load rest st'
      end
  end.

Definition MODULE_NOT_FOUND (request : string) : JsError :=
  sysError "MODULE_NOT_FOUND" ("Cannot find module '" +:+ request +:+ "'").

(** The resolution entry point of the runtime, saved as [originalLoad]:
    the exports of a cached module are returned as they are; otherwise
    the module is entered in the cache, its code is run, and a failure
    of that code withdraws the cache entry.  [installed] is the function
    currently installed as [Module._load]. *)
Definition originalLoad (installed : LoadFn) : LoadFn :=
  fun request st =>
    match requireCache st !! request with
    | Some o => Some (Normal (exportsOf o st), st)
    | None =>
        match disk st !! request with
        | None => Some (Abrupt (MODULE_NOT_FOUND request), st)
        | Some file =>
            let (o, st1) := alloc st in
            let st2 := logInit request
                         (setRequireCache (<[request := o]> (requireCache st1)) st1) in
            match runNested installed (nested file) st2 with
            | None => None
            | Some (Abrupt e, st3) =>
                Some (Abrupt e, setRequireCache (delete request (requireCache st3)) st3)
            | Some (Normal _, st3) =>
                match failsInit file with
                | Some e =>
                    Some (Abrupt e, setRequireCache (delete request (requireCache st3)) st3)
                | None =>
                    match replaces file with
                    | Some v =>
                        Some (Normal (Replaced v),
                              setReplaced (<[o := v]> (replaced st3)) st3)
                    | None => Some (Normal (Ref o), st3)
                    end
                end
            end
        end
    end.

Section Interception.
(** Where the substitute for the Swift add-on lives. *)
Variable STUB_PATH : string.

(** [if (swiftStubCache)]: what the variable holds, when that is
    truthy. *)
Definition cachedStub (st : LoaderState) : option Exports :=
  match swiftStubCache st with
  | Some cached => if truthyExports cached then Some cached else None
  | None => None
  end.

(** [loadSwiftStub] of the loader. *)
Definition loadSwiftStub (originalLoad : LoadFn) (st : LoaderState)
    : option (completion Exports * LoaderState) :=
  match cachedStub st with
  | Some cached => Some (Normal cached, st)
  | None =>
      match disk st !! STUB_PATH with
      | None =>
          Some (Abrupt (mkError ("Swift stub not found: " +:+ STUB_PATH)), st)
      | Some _ =>
          let st1 := setLoadingStub true st in
          let st2 := setRequireCache (delete STUB_PATH (requireCache st1)) st1 in
          match originalLoad STUB_PATH st2 with
          | None => None
          | Some (Normal x, st3) =>
              Some (Normal x, setLoadingStub false (setSwiftStubCache (Some x) st3))
          | Some (Abrupt e, st3) =>
              Some (Abrupt e, setLoadingStub false st3)
          end
      end
  end.

Definition matchesSwiftAddon (request : string) : bool :=
  includes request "swift_addon" && endsWith request ".node".

Definition matchesNativeBinding (request : string) : bool :=
  includes request "claude-native-binding" && endsWith request ".node".


(** [Module._load] as replaced by the loader.  The argument [fuel]
    bounds the depth of nested loads.  [patchedElectron] is only ever
    given the proxy of the runtime module, an object. *)
Fixpoint Module_load (fuel : nat) (request : string) (st : LoaderState)
    : option (completion Exports * LoaderState) :=
  match fuel with
  | O => None
  | S fuel' =>
      let originalLoad := originalLoad (Module_load fuel') in
      if loadingStub st then originalLoad request st
      else if matchesSwiftAddon request then loadSwiftStub originalLoad st
      else if matchesNativeBinding request then
        let (o, st') := alloc st in Some (Normal (Ref o), st')
      else
        match String.eqb request "electron", patchedElectron st with
        | true, Some proxy => Some (Normal (Ref proxy), st)
        | _, _ => originalLoad request st
        end
  end.

(** A sequence of requests made one after the other. *)
Fixpoint serve (fuel : nat) (requests : list string) (st : LoaderState)
    : option (list (completion Exports) * LoaderState) :=
  match requests with
  | [] => Some ([], st)
  | r :: rest =>
      match Module_load fuel r st with
      | None => None
      | Some (res, st1) =>
          match serve fuel rest st1 with
          | None => None
          | Some (ress, st2) => Some (res :: ress, st2)
          end
      end
  end.
End Interception.



(** A disk holding the substitute and one ordinary component. *)
Definition demoStubPath : string :=
  "/opt/claude/stubs/@ant/claude-swift/js/index.js".

Definition demoDisk : gmap string ModuleFile :=
  {[ demoStubPath := {| nested := []; failsInit := None; replaces := None |};
     "nativeWidget.bin" := {| nested := []; failsInit := None; replaces := None |} ]}.


(** The state in which the loader leaves its variables when it is set
    up, over a given disk. *)
Definition initial (files : gmap string ModuleFile) : LoaderState :=
  {| swiftStubCache := None; loadingStub := false; patchedElectron := None;
     disk := files; requireCache := ∅; replaced := ∅; nextRef := 0;
     initLog := [] |}.

End Loader.

(** ** 4. Interception of handler registration and removal *)

Module Dispatch.

(** What the promise returned by a handler settles to, if it does.  A
    handler that throws and one whose promise is rejected are not told
    apart by [await] inside [try]. *)
Inductive Settled :=
| Fulfilled (v : JsValue)
| Rejected (reason : JsError)
| Pending.

Definition Handler : Type := list JsValue -> Settled.

Definition supported : JsValue := VObject [("status", VStr "supported")].
Definition unsupported (reason : string) : JsValue :=
  VObject [("status", VStr "unsupported"); ("reason", VStr reason)].

Definition getSupportedFeatures : Handler := fun _ =>
  Fulfilled (VObject [
    ("nativeQuickEntry", unsupported "linux");
    ("quickEntryDictation", unsupported "linux");
    ("customQuickEntryDictationShortcut", unsupported "linux");
    ("plushRaccoon", supported);
    ("quietPenguin", supported);
    ("louderPenguin", supported);
    ("chillingSlothEnterprise", supported);
    ("chillingSlothFeat", supported);
    ("chillingSlothLocal", supported);
    ("yukonSilver", supported);
    ("yukonSilverGems", supported);
    ("desktopTopBar", supported);
    ("desktopVoiceDictation", unsupported "linux") ]).

Definition getCoworkFeatureState : Handler := fun _ =>
  Fulfilled (VObject [("enabled", VBool true); ("status", VStr "supported");
                      ("reason", VNull)]).

Definition getYukonSilverStatus : Handler := fun _ =>
  Fulfilled (VObject [("status", VStr "supported")]).

Definition getFeatureFlags : Handler := fun _ =>
  Fulfilled (VObject [("yukonSilver", VBool true); ("cowork", VBool true);
                      ("localAgentMode", VBool true)]).

(** The policy tables, in the order of their entries. *)
Definition FORCE_OVERRIDES : list (string * Handler) :=
  [ ("AppFeatures_$_getSupportedFeatures", getSupportedFeatures);
    ("AppFeatures_$_getCoworkFeatureState", getCoworkFeatureState);
    ("AppFeatures_$_getYukonSilverStatus", getYukonSilverStatus);
    ("AppFeatures_$_getFeatureFlags", getFeatureFlags) ].

Definition ready : JsValue :=
  VObject [("status", VStr "ready"); ("downloaded", VBool true);
           ("progress", VNum 100)].

Definition ERROR_FALLBACKS : list (string * Handler) :=
  [ ("ClaudeVM_$_download", fun _ => Fulfilled ready);
    ("ClaudeVM_$_getDownloadStatus", fun _ =>
       Fulfilled (VObject [("status", VStr "ready"); ("downloaded", VBool true);
                           ("progress", VNum 100);
                           ("version", VStr "linux-native-1.0.0")]));
    ("ClaudeVM_$_getRunningStatus", fun _ =>
       Fulfilled (VObject [("running", VBool true); ("connected", VBool true);
                           ("status", VStr "connected")]));
    ("ClaudeVM_$_start", fun _ =>
       Fulfilled (VObject [("started", VBool true); ("status", VStr "running")]));
    ("ClaudeVM_$_stop", fun _ => Fulfilled (VObject [("stopped", VBool true)]));
    ("ClaudeVM_$_getSupportStatus", fun _ =>
       Fulfilled (VObject [("status", VStr "supported")]));
    ("ClaudeCode_$_prepare", fun _ =>
       Fulfilled (VObject [("ready", VBool true); ("status", VStr "ready")]));
    ("Account_$_setAccountDetails", fun _ =>
       Fulfilled (VObject [("success", VBool true)]));
    ("QuickEntry_$_setRecentChats", fun _ =>
       Fulfilled (VObject [("success", VBool true)])) ].

(** [for (const [pattern, h] of Object.entries(table))
      if (channel.includes(pattern)) ... h ...]:
    the handler of the first entry whose pattern occurs in the channel. *)
Fixpoint firstMatch (table : list (string * Handler)) (channel : string)
    : option Handler :=
  match table with
  | [] => None
  | (pattern, h) :: rest =>
      if includes channel pattern then Some h else firstMatch rest channel
  end.

(** [for (const pattern of Object.keys(table))
      if (channel.includes(pattern)) return;] *)
Fixpoint anyKeyMatches (table : list (string * Handler)) (channel : string)
    : bool :=
  match table with
  | [] => false
  | (pattern, _) :: rest =>
      if includes channel pattern then true else anyKeyMatches rest channel
  end.

(** The wrapper registered on the process-wide surface:
    [async (...args) => { try { return await appHandler(...args); }
                          catch (e) { return await fallback(...args); } }] *)
Definition safeHandler (appHandler fallback : Handler) : Handler :=
  fun args =>
    match appHandler args with
    | Fulfilled v => Fulfilled v
    | Rejected _ => fallback args
    | Pending => Pending
    end.

(** The wrapper registered on a per-content surface takes the event as
    a named first parameter, [async (evt, ...args) => ...], so the
    inner calls always pass at least one argument. *)
Definition withEvent (args : list JsValue) : list JsValue :=
  match args with
  | [] => [VUndefined]
  | evt :: rest => evt :: rest
  end.

Definition safeHandlerWc (appHandler fallback : Handler) : Handler :=
  fun args =>
    match appHandler (withEvent args) with
    | Fulfilled v => Fulfilled v
    | Rejected _ => fallback (withEvent args)
    | Pending => Pending
    end.

Section Wrapped.
(** The registry behind a registration surface and its two original
    entry points. *)
Variable Registry : Type.
Variable origHandle : string -> Handler -> M Registry unit.
Variable origRemoveHandler : string -> M Registry unit.

(** [ipcMain.handle] as replaced; [wrap] is [safeHandler] on the
    process-wide surface and [safeHandlerWc] on a per-content one. *)
Definition handleWith (wrap : Handler -> Handler -> Handler)
    (channel : string) (handler : Handler) : M Registry unit :=
  match firstMatch FORCE_OVERRIDES channel with
  | Some override => origHandle channel override
  | None =>
      match firstMatch ERROR_FALLBACKS channel with
      | Some fallback => origHandle channel (wrap handler fallback)
      | None => origHandle channel handler
      end
  end.

Definition handle : string -> Handler -> M Registry unit :=
  handleWith safeHandler.

(** [webContents.ipc.handle] as replaced. *)
Definition wcHandle : string -> Handler -> M Registry unit :=
  handleWith safeHandlerWc.

(** [ipcMain.removeHandler] and [webContents.ipc.removeHandler] as
    replaced. *)
Definition removeHandler (channel : string) : M Registry unit :=
  if anyKeyMatches FORCE_OVERRIDES channel then ret tt
  else origRemoveHandler channel.
End Wrapped.

(** Two guest handlers: one that answers, one that fails. *)
Definition guestAnswers : Handler := fun _ => Fulfilled VNull.
Definition guestFails : Handler := fun _ =>
  Rejected (mkError "VM service is not available").

(** *** The registry of the embedding runtime

    Handlers are kept per channel.  Registering on a channel that has
    a handler is an error; removing is silent. *)
Module ElectronIpc.

Abbreviation Registry := (gmap string Handler).

Definition origHandle (channel : string) (h : Handler) : M Registry unit :=
  fun reg =>
    match reg !! channel with
    | Some _ =>
        (Abrupt (mkError ("Attempted to register a second handler for '"
                          +:+ channel +:+ "'")), reg)
    | None => (Normal tt, <[channel := h]> reg)
    end.

Definition origRemoveHandler (channel : string) : M Registry unit :=
  fun reg => (Normal tt, delete channel reg).

Definition handle := Dispatch.handle Registry origHandle.
Definition wcHandle := Dispatch.wcHandle Registry origHandle.
Definition removeHandler := Dispatch.removeHandler Registry origRemoveHandler.

(** What the guest may ask of a surface. *)
Inductive Request :=
| Register (channel : string) (handler : Handler)
| Remove (channel : string).

Definition step (wc : bool) (r : Request) (reg : Registry) : Registry :=
  match r with
  | Register channel handler =>
      snd ((if wc then wcHandle else handle) channel handler reg)
  | Remove channel => snd (removeHandler channel reg)
  end.

(** The registry after a sequence of requests. *)
Definition run (wc : bool) (rs : list Request) (reg : Registry) : Registry :=
  fold_left (fun acc r => step wc r acc) rs reg.

(** Invoking whatever is registered on a channel. *)
Definition invoke (reg : Registry) (channel : string) (args : list JsValue)
    : option Settled :=
  match reg !! channel with
  | Some h => Some (h args)
  | None => None
  end.

End ElectronIpc.

End Dispatch.

(** ** 5. Interception of window construction *)

Module Window.

(** An own data property of an object, with the attributes that decide
    whether it can be written or deleted. *)
Record Property := {
  value : JsValue;
  writable : bool;
  configurable : bool
}.

(** The options object handed to the window constructor: its own data
    properties, and whether properties can be added to it
    ([Object.isExtensible]).  Accessor properties and inherited
    properties are not represented. *)
Record Options := {
  props : gmap string Property;
  extensible : bool
}.

(** A property as an object literal or a plain assignment creates it. *)
Definition plain (v : JsValue) : Property :=
  {| value := v; writable := true; configurable := true |}.

(** An object literal with the given fields. *)
Definition literal (fields : gmap string JsValue) : Options :=
  {| props := plain <$> fields; extensible := true |}.

(** [Object.freeze(o)] *)
Definition freeze (o : Options) : Options :=
  {| props := (fun p => {| value := value p; writable := false;
                           configurable := false |}) <$> props o;
     extensible := false |}.

(** [options[key]] *)
Definition get (key : string) (o : Options) : option JsValue :=
  value <$> props o !! key.

(** What [options[key] = v] does to the property; the loader is not in
    strict mode, so an assignment that cannot be carried out (the
    property is not writable, or it is missing and the object is not
    extensible) has no effect and does not throw. *)
Definition assigned (extensible : bool) (v : JsValue) (slot : option Property)
    : option Property :=
  match slot with
  | Some p =>
      if writable p
      then Some {| value := v; writable := true; configurable := configurable p |}
      else Some p
  | None => if extensible then Some (plain v) else None
  end.

Definition assign (key : string) (v : JsValue) (o : Options) : Options :=
  {| props := partial_alter (assigned (extensible o) v) key (props o);
     extensible := extensible o |}.

(** What [delete options[key]] does to the property: a property that is
    not configurable stays, without an error. *)
Definition removed (slot : option Property) : option Property :=
  match slot with
  | Some p => if configurable p then None else Some p
  | None => None
  end.

Definition remove (key : string) (o : Options) : Options :=
  {| props := partial_alter removed key (props o);
     extensible := extensible o |}.

(** Whether an assignment to [key], or its deletion, takes effect. *)
Definition canAssign (key : string) (o : Options) : bool :=
  match props o !! key with
  | Some p => writable p
  | None => extensible o
  end.

Definition canDelete (key : string) (o : Options) : bool :=
  match props o !! key with
  | Some p => configurable p
  | None => true
  end.

(** [options.frame === false] *)
Definition frameIsFalse (options : Options) : bool :=
  match get "frame" options with
  | Some (VBool false) => true
  | _ => false
  end.

(** [options.transparent] in a condition *)
Definition transparentSet (options : Options) : bool :=
  match get "transparent" options with
  | Some v => truthy v
  | None => false
  end.

(** What reaches the original constructor, and whether
    [setMenuBarVisibility(false)] is tried on the new window. *)
Record Construction := {
  passed : Options;
  menuBarHidden : bool
}.

Section Trap.
Variable REAL_PLATFORM : string.

(** The [construct] trap of [BrowserWindowProxy].  [arg0] is
    [args[0]] when it is an object; [None] stands for a missing (or
    falsy) first argument, replaced by [{}].  The trap writes into the
    object it was given. *)
Definition construct (arg0 : option Options) : Construction :=
  let options := match arg0 with Some o => o | None => literal ∅ end in
  if String.eqb REAL_PLATFORM "linux" then
    let options' :=
      if frameIsFalse options && transparentSet options then options
      else
        remove "trafficLightPosition"
          (remove "titleBarOverlay"
             (assign "frame" (VBool true)
                (assign "titleBarStyle" (VStr "default") options))) in
    {| passed := assign "autoHideMenuBar" (VBool true) options';
       menuBarHidden := true |}
  else {| passed := options; menuBarHidden := false |}.
End Trap.

(** An ordinary object: extensible, every property writable and
    configurable. *)
Definition ordinary (o : Options) : Prop :=
  extensible o = true /\
  forall key p, props o !! key = Some p ->
                writable p = true /\ configurable p = true.

(** An object on which no write has an effect, as after
    [Object.freeze]. *)
Definition inert (o : Options) : Prop :=
  extensible o = false /\
  forall key p, props o !! key = Some p ->
                writable p = false /\ configurable p = false.

(** The two requests of the design's scenario. *)
Definition overlayIntent : Options :=
  literal {[ "frame" := VBool false; "transparent" := VBool true ]}.

Definition hiddenTitleBar : Options :=
  literal {[ "titleBarStyle" := VStr "hidden" ]}.

End Window.

(** ** 7. Top-level guard for uncaught errors *)

Module Guard.

Inductive Verdict :=
| Suppressed (logged : string)
| Rethrown (error : JsError).

(** The listener installed with [process.on('uncaughtException', ...)].
    An error thrown from it ends the process. *)
Definition onUncaughtException (error : JsError) : Verdict :=
  match message error with
  | Some msg =>
      if negb (String.eqb msg EmptyString) &&
         (includes msg "is not a function" ||
          includes msg "No handler registered")
      then Suppressed msg
      else Rethrown error
  | None => Rethrown error
  end.

End Guard.


(** ** 0. Staging directory and placeholder bundle *)

Module VmBundle.

(** What the set-up touches: files with their contents, directories, the
    environment variables of the process, and the function installed as
    [os.tmpdir], if one was installed.  Files and directories are keyed
    by their path; symbolic links are not represented. *)
Record Host := {
  files : gmap string string;
  dirs : gset string;
  env : gmap string string;
  tmpdirOverride : option string
}.

Definition withFiles (f : gmap string string) (h : Host) : Host :=
  {| files := f; dirs := dirs h; env := env h;
     tmpdirOverride := tmpdirOverride h |}.

Definition withDirs (d : gset string) (h : Host) : Host :=
  {| files := files h; dirs := d; env := env h;
     tmpdirOverride := tmpdirOverride h |}.

Definition withEnv (e : gmap string string) (h : Host) : Host :=
  {| files := files h; dirs := dirs h; env := e;
     tmpdirOverride := tmpdirOverride h |}.

Definition withTmpdir (t : option string) (h : Host) : Host :=
  {| files := files h; dirs := dirs h; env := env h; tmpdirOverride := t |}.

(** [path.join(dir, name)] for a normalized directory and a plain name. *)
Definition pathJoin (dir name : string) : string := dir +:+ "/" +:+ name.

Definition EEXIST : JsError := sysError "EEXIST" "file already exists".
Definition EISDIR : JsError :=
  sysError "EISDIR" "illegal operation on a directory".

Section Primitives.
(** The verdict of the operating system on creating or writing a path
    (permissions, read-only or full file systems). *)
Variable refuses : string -> option JsError.

(** [fs.existsSync(p)] *)
Definition existsSync (p : string) (h : Host) : bool :=
  bool_decide (is_Some (files h !! p)) || bool_decide (p ∈ dirs h).

(** [fs.mkdirSync(p, { recursive: true })]: an existing directory is
    fine, a file in its place is not.  Ancestors are not tracked; nothing
    here asks for them. *)
Definition mkdirSync (p : string) : M Host unit :=
  fun h =>
    match refuses p with
    | Some e => (Abrupt e, h)
    | None =>
        match files h !! p with
        | Some _ => (Abrupt EEXIST, h)
        | None => (Normal tt, withDirs ({[ p ]} ∪ dirs h) h)
        end
    end.

(** [fs.writeFileSync(p, content)] *)
Definition writeFileSync (p content : string) : M Host unit :=
  fun h =>
    match refuses p with
    | Some e => (Abrupt e, h)
    | None =>
        if bool_decide (p ∈ dirs h) then (Abrupt EISDIR, h)
        else (Normal tt, withFiles (<[p := content]> (files h)) h)
    end.
End Primitives.

Definition markers : list string :=
  ["bundle_complete"; "rootfs.img"; "rootfs.img.zst"; "vmlinux"; "config.json"].

Definition configJson : string :=
  String.concat "" ["{"; String (Ascii.ascii_of_nat 34) "version";
                    String (Ascii.ascii_of_nat 34) ":";
                    String (Ascii.ascii_of_nat 34) "linux-native";
                    String (Ascii.ascii_of_nat 34) ",";
                    String (Ascii.ascii_of_nat 34) "skip_vm";
                    String (Ascii.ascii_of_nat 34) ":true}"].

Definition placeholder : string := "linux-native-placeholder".
Definition versionText : string := "999.0.0-linux-native".

(** What the set-up printed. *)
Inductive Report :=
| Fixed (dir : string)
| SetupFailed (msg : option string).

Section Setup.
Variable refuses : string -> option JsError.
(** [path.join(os.homedir(), '.config/Claude/vm_bundles')] *)
Variable vmBundleDir : string.

Definition vmTmpDir : string := pathJoin vmBundleDir "tmp".
Definition claudeVmBundle : string := pathJoin vmBundleDir "claudevm.bundle".
Definition versionPath : string := pathJoin claudeVmBundle "version".

(** The body of the loop over the markers. *)
Definition placeMarker (m : string) : M Host unit :=
  fun h =>
    let p := pathJoin claudeVmBundle m in
    if existsSync p h then (Normal tt, h)
    else if String.eqb m "config.json"
         then writeFileSync refuses p configJson h
         else writeFileSync refuses p placeholder h.

Fixpoint placeMarkers (ms : list string) : M Host unit :=
  match ms with
  | [] => ret tt
  | m :: rest => placeMarker m ;;; placeMarkers rest
  end.

(** The statements inside [try]. *)
Definition setupBody : M Host unit :=
  mkdirSync refuses vmTmpDir ;;;
  (fun h => (Normal tt,
             withTmpdir (Some vmTmpDir)
               (withEnv (<["TEMP" := vmTmpDir]>
                           (<["TMP" := vmTmpDir]>
                              (<["TMPDIR" := vmTmpDir]> (env h)))) h))) ;;;
  mkdirSync refuses claudeVmBundle ;;;
  placeMarkers markers ;;;
  writeFileSync refuses versionPath versionText.

(** The whole [try { ... } catch (e) { console.error(...) }]. *)
Definition setup (h : Host) : Report * Host :=
  match setupBody h with
  | (Normal _, h') => (Fixed vmTmpDir, h')
  | (Abrupt e, h') => (SetupFailed (message e), h')
  end.

End Setup.

Definition emptyHost : Host :=
  {| files := ∅; dirs := ∅; env := ∅; tmpdirOverride := None |}.

Definition allows : string -> option JsError := fun _ => None.

End VmBundle.

(** ** 3b. What loading never touches *)

Module LoaderFrame.
Import Loader.

(** From [st] to [st']: the proxy and the files are the same, references
    are only ever added, the re-entrancy flag is as it was, and while a
    substitution is in progress the cache is not written. *)
Definition framed (st st' : LoaderState) : Prop :=
  patchedElectron st' = patchedElectron st /\
  disk st' = disk st /\
  nextRef st <= nextRef st' /\
  loadingStub st' = loadingStub st /\
  (loadingStub st = true -> swiftStubCache st' = swiftStubCache st).

Definition Framing (load : LoadFn) : Prop :=
  forall request st res st',
    load request st = Some (res, st') -> framed st st'.

(** A disk whose substitute throws while it starts, and one without a
    substitute. *)
Definition brokenStubDisk : gmap string ModuleFile :=
  {[ demoStubPath := {| nested := ["fs"];
                        failsInit := Some (mkError "stub failed to start");
                        replaces := None |};
     "fs" := {| nested := []; failsInit := None; replaces := None |} ]}.

Definition noStubDisk : gmap string ModuleFile :=
  {[ "fs" := {| nested := []; failsInit := None; replaces := None |} ]}.


End LoaderFrame.

(** ** 6b. What the listeners of the asynchronous fallback report *)

Module MoveEvents.
Import MoveFallback.

(** The argument the callback gets for one stream event. *)
Definition streamReport (ev : StreamEvent) : option JsError :=
  match ev with
  | ReadError e => Some e
  | WriteError e => Some e
  | WriteClose => None
  end.

(** The deletions the events cause: one attempt per closing. *)
Definition unlinkPerClose {FS : Type} (unlink : string -> FS -> option JsError * FS)
    (oldPath : string) (events : list StreamEvent) (fs : FS) : FS :=
  fold_left (fun acc ev =>
               match ev with
               | WriteClose => snd (unlink oldPath acc)
               | _ => acc
               end) events fs.

(** A move whose write side is refused. *)
Definition refusedWrite : NodeFs.Faults :=
  {| NodeFs.renameFault := Some NodeFs.EXDEV; NodeFs.copyFault := None;
     NodeFs.pipeFault := NodeFs.WriteFault NodeFs.EACCES;
     NodeFs.unlinkFault := None |}.

End MoveEvents.

(** ** 3c. Patches applied to the runtime module *)

Module Patches.

(** A member of an object of the runtime: a function of the runtime
    itself, one of the loader's stand-ins (which returns a constant,
    through a promise when [async]), or plain data. *)
Inductive Member :=
| Native (name : string)
| Stub (async : bool) (result : JsValue)
| Data (v : JsValue).

Abbreviation Object := (gmap string Member).

(** [typeof m === 'function'] for a member looked up on an object. *)
Definition isFunction (m : option Member) : bool :=
  match m with
  | Some (Native _) | Some (Stub _ _) => true
  | _ => false
  end.

Definition patchedSysPrefs : list (string * Member) :=
  [ ("getMediaAccessStatus", Stub false (VStr "granted"));
    ("askForMediaAccess", Stub true (VBool true));
    ("getEffectiveAppearance", Stub false (VStr "light"));
    ("getAppearance", Stub false (VStr "light"));
    ("setAppearance", Stub false VUndefined);
    ("getAccentColor", Stub false (VStr "007AFF"));
    ("getColor", Stub false (VStr "#007AFF"));
    ("getUserDefault", Stub false VNull);
    ("setUserDefault", Stub false VUndefined);
    ("removeUserDefault", Stub false VUndefined);
    ("subscribeNotification", Stub false (VNum 0));
    ("unsubscribeNotification", Stub false VUndefined);
    ("subscribeWorkspaceNotification", Stub false (VNum 0));
    ("unsubscribeWorkspaceNotification", Stub false VUndefined);
    ("postNotification", Stub false VUndefined);
    ("postLocalNotification", Stub false VUndefined);
    ("isTrustedAccessibilityClient", Stub false (VBool true));
    ("isSwipeTrackingFromScrollEventsEnabled", Stub false (VBool false));
    ("isAeroGlassEnabled", Stub false (VBool false));
    ("isHighContrastColorScheme", Stub false (VBool false));
    ("isReducedMotion", Stub false (VBool false));
    ("isInvertedColorScheme", Stub false (VBool false)) ].

(** [for (const [key, val] of Object.entries(table)) target[key] = val;] *)
Definition assignAll (table : list (string * Member)) (target : Object) : Object :=
  fold_left (fun acc entry => <[fst entry := snd entry]> acc) table target.

(** [const origSysPrefs = electron.systemPreferences || {}] followed by
    the loop; the result is what [electron.systemPreferences] is
    afterwards.  The object made for a missing one is not stored
    anywhere. *)
Definition patchSystemPreferences (systemPreferences : option Object)
    : option Object :=
  match systemPreferences with
  | Some origSysPrefs => Some (assignAll patchedSysPrefs origSysPrefs)
  | None => None
  end.

Definition origin : JsValue := VObject [("x", VNum 0); ("y", VNum 0)].

Definition macOSWindowMethods : list (string * Member) :=
  [ ("setWindowButtonPosition", Stub false VUndefined);
    ("getWindowButtonPosition", Stub false origin);
    ("setTrafficLightPosition", Stub false VUndefined);
    ("getTrafficLightPosition", Stub false origin);
    ("setWindowButtonVisibility", Stub false VUndefined);
    ("setVibrancy", Stub false VUndefined);
    ("setBackgroundMaterial", Stub false VUndefined);
    ("setRepresentedFilename", Stub false VUndefined);
    ("getRepresentedFilename", Stub false (VStr EmptyString));
    ("setDocumentEdited", Stub false VUndefined);
    ("isDocumentEdited", Stub false (VBool false));
    ("setTouchBar", Stub false VUndefined);
    ("setSheetOffset", Stub false VUndefined);
    ("setAutoHideCursor", Stub false VUndefined) ].

(** [for (const [method, impl] of Object.entries(table))
      if (typeof proto[method] !== 'function') proto[method] = impl;]
    over the members visible on the prototype. *)
Definition assignMissing (table : list (string * Member)) (proto : Object) : Object :=
  fold_left (fun acc entry =>
               if isFunction (acc !! fst entry) then acc
               else <[fst entry := snd entry]> acc) table proto.

Definition patchWindowPrototype : Object -> Object :=
  assignMissing macOSWindowMethods.

(** The version the application reports: [app.getVersion] and
    [app.setVersion] as replaced. *)
Definition APP_VERSION : string := "1.1.2156".

End Patches.

(** ** 3d. Menu templates *)

Module Menu.

(** A menu item as far as the loader looks at it: its role, what it
    carries besides, and its submenu, which is an array of entries
    (possibly [null]) or something else. *)
Inductive MenuItem :=
| Item (role : option string) (rest : list (string * JsValue)) (submenu : Submenu)
with Submenu :=
| NoSubmenu
| OtherSubmenu (v : JsValue)
| Entries (subs : list (option MenuItem)).

Definition roleOf (i : MenuItem) : option string :=
  match i with Item r _ _ => r end.

Definition submenuOf (i : MenuItem) : Submenu :=
  match i with Item _ _ s => s end.

(** [role === 'services' || role === 'recentDocuments'] *)
Definition macOnlyRole (r : option string) : bool :=
  match r with
  | Some s => String.eqb s "services" || String.eqb s "recentDocuments"
  | None => false
  end.

(** The callback of [submenu.filter]. *)
Definition keepSub (sub : option MenuItem) : bool :=
  match sub with
  | None => false
  | Some i => negb (macOnlyRole (roleOf i))
  end.

(** The callback of [template.map]: a copy of the item ([{...item}],
    which is [{}] for [null]), dropped when its role is one of the two,
    its submenu filtered when it is an array. *)
Definition mapItem (item : option MenuItem) : option MenuItem :=
  let filtered := match item with
                  | Some i => i
                  | None => Item None [] NoSubmenu
                  end in
  if macOnlyRole (roleOf filtered) then None
  else match filtered with
       | Item r rest (Entries subs) =>
           Some (Item r rest (Entries (List.filter keepSub subs)))
       | _ => Some filtered
       end.

(** [(template || []).map(...).filter(Boolean)]: what is handed to the
    original [buildFromTemplate]. *)
Definition filteredTemplate (template : option (list (option MenuItem)))
    : list MenuItem :=
  omap mapItem (match template with Some t => t | None => [] end).

(** No entry of the item's own submenu is missing or carries one of the
    two roles. *)
Definition cleanSubmenu (i : MenuItem) : Prop :=
  match submenuOf i with
  | Entries subs =>
      Forall (fun sub => exists s, sub = Some s /\ macOnlyRole (roleOf s) = false) subs
  | _ => True
  end.

(** [Menu.setApplicationMenu] as replaced by the loader:
    [try { if (orig) orig.call(OrigMenu, menu); } catch (e) {}]. *)
Definition setApplicationMenu {W : Type} (orig : option (JsValue -> M W unit))
    (menu : JsValue) : M W unit :=
  tryCatch (match orig with
            | Some f => f menu
            | None => ret tt
            end)
    (fun _ => ret tt).

End Menu.

(** ** 3e. Outgoing request headers *)

Module Headers.

Abbreviation HeaderMap := (gmap string JsValue).

(** What the guest's handler passes to its callback: nothing, or an
    object with optional [requestHeaders] and [cancel]. *)
Record Response := {
  requestHeaders : option HeaderMap;
  cancel : JsValue
}.

Definition PLATFORM_HEADER : string := "anthropic-client-os-platform".

(** The callback the wrapper hands to the guest's handler:
    [(result) => { const headers = result?.requestHeaders
                                   || details.requestHeaders; ... }];
    the result is the argument of the runtime's callback. *)
Definition rewrite (detailsHeaders : HeaderMap) (result : option Response)
    : HeaderMap * JsValue :=
  let headers := match result with
                 | Some r => match requestHeaders r with
                             | Some h => h
                             | None => detailsHeaders
                             end
                 | None => detailsHeaders
                 end in
  let headers' := match headers !! PLATFORM_HEADER with
                  | Some v => if truthy v
                              then <[PLATFORM_HEADER := VStr "darwin"]> headers
                              else headers
                  | None => headers
                  end in
  (headers', match result with Some r => cancel r | None => VUndefined end).

(** The two ways of calling [onBeforeSendHeaders]. *)
Inductive Registration (F H : Type) :=
| WithFilter (filter : F) (handler : H)
| HandlerOnly (handler : H).
Global Arguments WithFilter {F H} filter handler.
Global Arguments HandlerOnly {F H} handler.

(** [patchedOnBeforeSendHeaders(filterOrHandler, maybeHandler)]: the
    first argument is the handler when it is a function.  [wrap] builds
    [wrappedHandler] from the guest's handler; a falsy filter is not
    passed on. *)
Definition patchedOnBeforeSendHeaders {F H : Type} (wrap : H -> H)
    (filterOrHandler : F + H) (maybeHandler : H) (filterTruthy : F -> bool)
    : Registration F H :=
  match filterOrHandler with
  | inr handler => HandlerOnly (wrap handler)
  | inl filter =>
      if filterTruthy filter then WithFilter filter (wrap maybeHandler)
      else HandlerOnly (wrap maybeHandler)
  end.

End Headers.

(** ** 8. The secondary layer: interception of [require] *)

Module Wrapper.
Import Dispatch.

(** [s.split(sep)] for a non-empty separator: the text is scanned from
    the left, [skip] counts the characters of a separator just matched
    that are still to be passed over. *)
Fixpoint splitAux (sep s : string) (skip : nat) : list string :=
  match s with
  | EmptyString => [EmptyString]
  | String c s' =>
      match skip with
      | S k => splitAux sep s' k
      | O =>
          if String.prefix sep s
          then EmptyString :: splitAux sep s' (String.length sep - 1)
          else match splitAux sep s' 0 with
               | [] => [String c EmptyString]
               | piece :: pieces => String c piece :: pieces
               end
      end
  end.

Definition split (s sep : string) : list string := splitAux sep s 0.

(** The text without its first [n] characters. *)
Fixpoint dropChars (n : nat) (s : string) : string :=
  match n, s with
  | O, _ => s
  | S k, String _ s' => dropChars k s'
  | S _, EmptyString => EmptyString
  end.

(** [channel.split('_$_').pop()] *)
Definition methodOf (channel : string) : string :=
  List.last (split channel "_$_") EmptyString.

Definition runningStatus : JsValue :=
  VObject [("running", VBool true); ("connected", VBool true);
           ("ready", VBool true); ("status", VStr "running")].

Definition downloadStatus : JsValue :=
  VObject [("status", VStr "ready"); ("downloaded", VBool true);
           ("installed", VBool true); ("progress", VNum 100)].

(** The handler registered for a channel of the virtual machine:
    [async (...args) => { ... try { return await handler(...args); }
                              catch(e) { return null; } }] *)
Definition wrappedHandler (channel : string) (handler : Handler) : Handler :=
  fun args =>
    let method := methodOf channel in
    if String.eqb method "getRunningStatus" then Fulfilled runningStatus
    else if String.eqb method "getDownloadStatus" then Fulfilled downloadStatus
    else if String.eqb method "isSupported" || String.eqb method "getSupportStatus"
         then Fulfilled (VStr "supported")
    else match handler args with
         | Fulfilled v => Fulfilled v
         | Rejected _ => Fulfilled VNull
         | Pending => Pending
         end.

(** [ipcMain.handle] as replaced by the wrapper; [originalHandle] is
    what was installed before. *)
Definition handle {R : Type} (originalHandle : string -> Handler -> M R unit)
    (channel : string) (handler : Handler) : M R unit :=
  if includes channel "ClaudeVM"
  then originalHandle channel (wrappedHandler channel handler)
  else originalHandle channel handler.


(** [try { m } catch (e) {}] *)
Definition quietly {W : Type} (m : M W unit) : M W unit :=
  tryCatch m (fun _ => ret tt).

(** [Menu.setApplicationMenu] as replaced by the wrapper;
    [originalSetAppMenu] is the member found on [Menu] ([None] when it
    is not a function), [hideAll] the loop asking every window to hide
    its menu bar. *)
Definition setApplicationMenu {W : Type} (REAL_PLATFORM : string)
    (originalSetAppMenu : option (JsValue -> M W unit)) (hideAll : M W unit)
    (menu : JsValue) : M W unit :=
  quietly (match originalSetAppMenu with
           | Some f => f menu
           | None => ret tt
           end) ;;;
  (if String.eqb REAL_PLATFORM "linux" then quietly hideAll else ret tt).

(** The parts of the runtime module the hook rewrites, with the flag
    [global.__coworkIPCPatched]: [ipcMain.handle] ([None] when the
    module has no [ipcMain]) and [Menu.setApplicationMenu] ([None] when
    it is not a function). *)
Record Electron (R W : Type) := {
  coworkIPCPatched : bool;
  ipcMainHandle : option (string -> Handler -> M R unit);
  menuSetApplicationMenu : option (JsValue -> M W unit)
}.
Global Arguments coworkIPCPatched {R W} _.
Global Arguments ipcMainHandle {R W} _.
Global Arguments menuSetApplicationMenu {R W} _.

(** What [require('electron')] does to the runtime module each time it
    goes through the hook. *)
Definition onRequireElectron {R W : Type} (REAL_PLATFORM : string)
    (hideAll : M W unit) (e : Electron R W) : Electron R W :=
  {| coworkIPCPatched :=
       match ipcMainHandle e with
       | Some _ => true
       | None => coworkIPCPatched e
       end;
     ipcMainHandle :=
       match ipcMainHandle e with
       | Some originalHandle =>
           if coworkIPCPatched e then Some originalHandle
           else Some (handle originalHandle)
       | None => None
       end;
     menuSetApplicationMenu :=
       Some (setApplicationMenu REAL_PLATFORM (menuSetApplicationMenu e) hideAll) |}.

(** The three functions put on [swiftStub.vm]. *)
Definition vmOverrides : list (string * Patches.Member) :=
  [ ("getStatus",
     Patches.Stub false (VObject [("supported", VBool true);
                                  ("status", VStr "supported");
                                  ("running", VBool true);
                                  ("connected", VBool true)]));
    ("getSupportStatus", Patches.Stub false (VStr "supported"));
    ("isSupported", Patches.Stub false (VBool true)) ].

(** What [require] returns for an identifier containing
    ['@ant/claude-swift']: the module as loaded, its [vm] member, when it
    has one, carrying the three functions.  [None] is a module that is
    falsy, or has no (truthy) [vm]. *)
Definition patchSwiftVm (vm : option Patches.Object) : option Patches.Object :=
  match vm with
  | Some members => Some (Patches.assignAll vmOverrides members)
  | None => None
  end.

(** A world that counts the passes over the windows. *)
Definition countingHide : M nat unit := fun n => (Normal tt, S n).

End Wrapper.
(** ** Facts about the string primitives *)

Section StringFacts.

Lemma prefix_nil_l s : String.prefix EmptyString s = true.
Proof. by destruct s. Qed.




Lemma prefix_inv pat s :
  String.prefix pat s = true -> exists post, s = pat +:+ post.
Proof.
  revert s. induction pat as [|p pat IH]; intros s H.
  - by exists s.
  - destruct s as [|c s]; [done|]. simpl in H.
    destruct (Ascii.ascii_dec p c) as [->|]; [|done].
    destruct (IH _ H) as [post ->]. by exists post.
Qed.

Lemma includes_inv s pat :
  includes s pat = true -> exists pre post, s = pre +:+ pat +:+ post.
Proof.
  induction s as [|c s IH]; cbn [includes]; intros H.
  - rewrite orb_false_r in H.
    destruct (prefix_inv _ _ H) as [post ->]. by exists EmptyString, post.
  - apply orb_true_iff in H as [H|H].
    + destruct (prefix_inv _ _ H) as [post ->]. by exists EmptyString, post.
    + destruct (IH H) as (pre & post & ->).
      by exists (String c pre), post.
Qed.

(** A pattern free of line feeds cannot start before a line feed and
    run across it. *)
Lemma prefix_before_LF pat s1 s2 :
  lacks LF pat = true ->
  String.prefix pat (s1 +:+ String LF s2) = String.prefix pat s1.
Proof.
  revert s1. induction pat as [|p pat IH]; intros s1 Hp.
  - by rewrite !prefix_nil_l.
  - cbn [lacks] in Hp. apply andb_true_iff in Hp as [Hne Hp].
    apply negb_true_iff, Ascii.eqb_neq in Hne.
    destruct s1 as [|c s1]; simpl.
    + destruct (Ascii.ascii_dec p _) as [e|]; [by destruct Hne | reflexivity].
    + destruct (Ascii.ascii_dec p c); [by apply IH | reflexivity].
Qed.

Lemma includes_across_LF pat s1 s2 :
  pat <> EmptyString -> lacks LF pat = true ->
  includes (s1 +:+ String LF s2) pat = includes s1 pat || includes s2 pat.
Proof.
  intros Hne Hp. induction s1 as [|c s1 IH].
  - destruct pat as [|p pat]; [done|].
    cbn [lacks] in Hp. apply andb_true_iff in Hp as [Hp _].
    apply negb_true_iff, Ascii.eqb_neq in Hp.
    simpl.
    destruct (Ascii.ascii_dec p _) as [e|]; [by destruct Hp | reflexivity].
  - change (String c s1 +:+ String LF s2)
      with (String c (s1 +:+ String LF s2)).
    cbn [includes].
    change (String c (s1 +:+ String LF s2))
      with (String c s1 +:+ String LF s2).
    rewrite prefix_before_LF by done.
    rewrite IH. by rewrite orb_assoc.
Qed.

Lemma includes_empty pat : pat <> EmptyString -> includes EmptyString pat = false.
Proof. by destruct pat. Qed.

(** Searching the joined lines is searching each line. *)
Lemma includes_joinLines pat frames :
  pat <> EmptyString -> lacks LF pat = true ->
  includes (joinLines frames) pat = existsb (fun f => includes f pat) frames.
Proof.
  intros Hne Hp. induction frames as [|f frames IH].
  - by apply includes_empty.
  - destruct frames as [|g frames].
    + simpl. by rewrite orb_false_r.
    + change (joinLines (f :: g :: frames))
        with (f +:+ String LF (joinLines (g :: frames))).
      rewrite includes_across_LF by done.
      by rewrite IH.
Qed.

Lemma endsWith_suffix pre suf : endsWith (pre +:+ suf) suf = true.
Proof.
  induction pre as [|c pre IH].
  - change (EmptyString +:+ suf) with suf.
    destruct suf; cbn [endsWith]; by rewrite String.eqb_refl.
  - change (String c pre +:+ suf) with (String c (pre +:+ suf)).
    cbn [endsWith]. rewrite IH. apply orb_true_r.
Qed.

Lemma endsWith_inv s suf :
  endsWith s suf = true -> exists pre, s = pre +:+ suf.
Proof.
  induction s as [|c s IH]; cbn [endsWith]; intros H.
  - rewrite orb_false_r in H. apply String.eqb_eq in H as <-.
    by exists EmptyString.
  - apply orb_true_iff in H as [H|H].
    + apply String.eqb_eq in H as <-. by exists EmptyString.
    + destruct (IH H) as [pre ->]. by exists (String c pre).
Qed.

Lemma splitLines_nonempty s : splitLines s <> [].
Proof.
  destruct s as [|c s]; cbn [splitLines]; [done|].
  destruct (Ascii.eqb c LF); [done|]. by destruct (splitLines s).
Qed.

(** Splitting at line feeds and joining again gives the text back. *)
Lemma joinLines_splitLines s : joinLines (splitLines s) = s.
Proof.
  induction s as [|c s IH]; [done|]. cbn [splitLines].
  pose proof (splitLines_nonempty s) as Hne.
  destruct (Ascii.eqb_spec c LF) as [->|Hc].
  - destruct (splitLines s) as [|piece pieces] eqn:Hs; [done|].
    change (joinLines (EmptyString :: piece :: pieces))
      with (String LF (joinLines (piece :: pieces))).
    by rewrite IH.
  - destruct (splitLines s) as [|piece pieces] eqn:Hs; [done|].
    rewrite <- IH. by destruct pieces.
Qed.

End StringFacts.

(** ** Properties of the classifier *)

Section ClassifierFacts.
Import Classifier.

(** A test for any of a list of markers, none of which is empty or
    contains a line feed, looks at each line on its own. *)
Lemma markers_joinLines (markers frames : list string) :
  Forall (fun m => m <> EmptyString /\ lacks LF m = true) markers ->
  existsb (includes (joinLines frames)) markers =
  existsb (fun f => existsb (includes f) markers) frames.
Proof.
  intros Hwf. rewrite Forall_forall in Hwf.
  apply eq_true_iff_eq. rewrite !existsb_exists. split.
  - intros (m & Hm & Hinc).
    destruct (Hwf m) as [Hne Hlf]; [by apply list_elem_of_In|].
    rewrite includes_joinLines in Hinc by done.
    apply existsb_exists in Hinc as (f & Hf & Hfm).
    exists f. split; [done|]. apply existsb_exists. eauto.
  - intros (f & Hf & Hsys).
    apply existsb_exists in Hsys as (m & Hm & Hfm).
    exists m. split; [done|].
    destruct (Hwf m) as [Hne Hlf]; [by apply list_elem_of_In|].
    rewrite includes_joinLines by done.
    apply existsb_exists. eauto.
Qed.

Lemma isSystemCall_existsb stack :
  isSystemCall stack = existsb (includes stack) TRUSTED_MARKERS.
Proof.
  unfold isSystemCall, TRUSTED_MARKERS. cbn [existsb].
  by rewrite orb_false_r, !orb_assoc.
Qed.

Lemma markers_wellformed :
  Forall (fun m => m <> EmptyString /\ lacks LF m = true) TRUSTED_MARKERS.
Proof. repeat constructor; done. Qed.

Lemma isSystemCall_true_iff stack :
  isSystemCall stack = true <->
  exists m, In m TRUSTED_MARKERS /\ includes stack m = true.
Proof. rewrite isSystemCall_existsb. apply existsb_exists. Qed.

Lemma isSystemCall_joinLines frames :
  isSystemCall (joinLines frames) =
  existsb (fun f => isSystemCall f) frames.
Proof.
  rewrite isSystemCall_existsb, markers_joinLines by apply markers_wellformed.
  induction frames as [|f frames IH]; [done|].
  cbn [existsb]. by rewrite IH, isSystemCall_existsb.
Qed.

(** The wrapper's classifier is the same test over one marker less. *)
Lemma wrapper_isSystemCall_existsb stack :
  WrapperClassifier.isSystemCall stack =
  existsb (includes stack) WrapperClassifier.TRUSTED_MARKERS.
Proof.
  unfold WrapperClassifier.isSystemCall, WrapperClassifier.TRUSTED_MARKERS.
  cbn [existsb]. by rewrite orb_false_r, !orb_assoc.
Qed.

Lemma wrapper_isSystemCall_joinLines frames :
  WrapperClassifier.isSystemCall (joinLines frames) =
  existsb (fun f => WrapperClassifier.isSystemCall f) frames.
Proof.
  rewrite wrapper_isSystemCall_existsb, markers_joinLines
    by (repeat constructor; done).
  induction frames as [|f frames IH]; [done|].
  cbn [existsb]. by rewrite IH, wrapper_isSystemCall_existsb.
Qed.

Lemma wrapper_trusted_is_loader_trusted stack :
  WrapperClassifier.isSystemCall stack = true -> isSystemCall stack = true.
Proof.
  unfold WrapperClassifier.isSystemCall, isSystemCall.
  rewrite !orb_true_iff. tauto.
Qed.

(** C5. For a stack description given as a sequence of frame texts (the
    classifier receives them joined by line feeds): if some frame
    contains one of the trusted provenance markers the classifier
    answers trusted, if no frame contains any marker it answers guest,
    and the empty description is guest. *)
Theorem classify_frames (frames : list string) :
  ((exists f m, In f frames /\ In m TRUSTED_MARKERS /\ includes f m = true) ->
     classify (joinLines frames) = Trusted) /\
  ((forall f m, In f frames -> In m TRUSTED_MARKERS -> includes f m = false) ->
     classify (joinLines frames) = Guest) /\
  classify EmptyString = Guest /\
  classify (joinLines []) = Guest.
Proof.
  unfold classify. rewrite isSystemCall_joinLines.
  split; [|split; [|split; reflexivity]].
  - intros (f & m & Hf & Hm & Hfm).
    assert (existsb (fun f => isSystemCall f) frames = true) as ->; [|done].
    apply existsb_exists. exists f. split; [done|].
    apply isSystemCall_true_iff. eauto.
  - intros Hnone.
    destruct (existsb (fun f => isSystemCall f) frames) eqn:He; [|done].
    apply existsb_exists in He as (f & Hf & Hsys).
    apply isSystemCall_true_iff in Hsys as (m & Hm & Hfm).
    rewrite (Hnone f m) in Hfm; done.
Qed.

End ClassifierFacts.

(** ** Properties of the identity accessors *)

Section IdentityFacts.
Import Identity.

(** The platform and architecture accessors answer by caller origin,
    whichever classifier they were installed with. *)
Lemma platform_arch_by_origin (isSystemCall : string -> bool)
    (real : Captured) (errorStack : option string) :
  (isSystemCall (callerFrames errorStack) = false ->
     platform_get isSystemCall real errorStack = platformFamily VIRTUAL /\
     arch_get isSystemCall real errorStack = cpuArchitecture VIRTUAL) /\
  (isSystemCall (callerFrames errorStack) = true ->
     platform_get isSystemCall real errorStack = REAL_PLATFORM real /\
     arch_get isSystemCall real errorStack = REAL_ARCH real).
Proof.
  unfold platform_get, arch_get.
  destruct (isSystemCall (callerFrames errorStack)); split; done.
Qed.

Lemma os_platform_arch_by_origin (isSystemCall : string -> bool)
    (originalOsPlatform originalOsArch : unit -> string)
    (errorStack : option string) :
  (isSystemCall (callerFrames errorStack) = false ->
     os_platform isSystemCall originalOsPlatform errorStack = "darwin" /\
     os_arch isSystemCall originalOsArch errorStack = "arm64") /\
  (isSystemCall (callerFrames errorStack) = true ->
     os_platform isSystemCall originalOsPlatform errorStack = originalOsPlatform tt /\
     os_arch isSystemCall originalOsArch errorStack = originalOsArch tt).
Proof.
  unfold os_platform, os_arch.
  destruct (isSystemCall (callerFrames errorStack)); split; done.
Qed.

(** A missing stack is a guest stack. *)
Lemma callerFrames_unavailable :
  Classifier.classify (callerFrames None) = Classifier.Guest /\
  Classifier.classify (callerFrames (Some EmptyString)) = Classifier.Guest.
Proof. split; reflexivity. Qed.

(** The version accessor is constant. *)
Lemma getSystemVersion_constant (isSystemCall : string -> bool)
    (real : Captured) (errorStack : option string) :
  osVersionString (observed isSystemCall real errorStack)
  = osVersionString VIRTUAL.
Proof. reflexivity. Qed.

Lemma guest_observes_virtual (host : Descriptor) :
  Classifier.classify (callerFrames guestStack) = Classifier.Guest /\
  loaderObserved host guestStack = VIRTUAL /\
  wrapperObserved host guestStack = VIRTUAL.
Proof. repeat split; reflexivity. Qed.

(** C1. A read of the three identity facts from the module loader of the
    runtime, on a Linux host, through the accessors of either file: the
    caller is classified trusted, the platform and the architecture are
    the real ones, and the version is the virtual ['14.0.0'], not the
    version of the host. *)
Theorem trusted_caller_sees_virtual_version :
  Classifier.classify (callerFrames runtimeStack) = Classifier.Trusted /\
  WrapperClassifier.isSystemCall (callerFrames runtimeStack) = true /\
  loaderObserved linuxHost runtimeStack =
    {| platformFamily := "linux"; cpuArchitecture := "x64";
       osVersionString := "14.0.0" |} /\
  wrapperObserved linuxHost runtimeStack =
    {| platformFamily := "linux"; cpuArchitecture := "x64";
       osVersionString := "14.0.0" |} /\
  osVersionString (loaderObserved linuxHost runtimeStack)
    <> osVersionString linuxHost.
Proof. repeat (split; [reflexivity|]). discriminate. Qed.

End IdentityFacts.

(** ** Properties of the move fallback *)

Section MoveFacts.
Import MoveFallback.

Section Generic.
Context {FS : Type}.
Variable originalRenameSync : string -> string -> M FS unit.
Variable copyFileSync : string -> string -> M FS unit.
Variable unlinkSync : string -> M FS unit.
Variable originalRename : string -> string -> FS -> option JsError * FS.
Variable pipe : string -> string -> FS -> list StreamEvent * FS.
Variable unlink : string -> FS -> option JsError * FS.

Local Abbreviation renameSync :=
  (renameSync FS originalRenameSync copyFileSync unlinkSync).
Local Abbreviation rename := (rename FS originalRename pipe unlink).

(** The synchronous form, by what the primitive did. *)
Lemma renameSync_cases oldPath newPath fs :
  renameSync oldPath newPath fs =
  match originalRenameSync oldPath newPath fs with
  | (Normal _, fs1) => (Normal tt, fs1)
  | (Abrupt err, fs1) =>
      if isEXDEV err
      then (copyFileSync oldPath newPath ;;; unlinkSync oldPath ;;; ret tt) fs1
      else (Abrupt err, fs1)
  end.
Proof.
  unfold MoveFallback.renameSync, tryCatch.
  destruct (originalRenameSync oldPath newPath fs) as [[[]|err] fs1]; [done|].
  by destruct (isEXDEV err).
Qed.

(** The listener for the closing of the write stream reports success
    whatever the deletion did. *)
Lemma close_reports_success oldPath calls fs :
  fst (onStreamEvent FS unlink oldPath WriteClose (calls, fs)) = calls ++ [None] /\
  snd (onStreamEvent FS unlink oldPath WriteClose (calls, fs)) = snd (unlink oldPath fs).
Proof. unfold onStreamEvent. by destruct (unlink oldPath fs). Qed.

End Generic.

Import NodeFs.

Lemma isEXDEV_EXDEV : isEXDEV EXDEV = true.
Proof. reflexivity. Qed.









(** C10. In the asynchronous form, once the cross-device copy of an
    existing source has completed, the callback is invoked exactly once
    and with no error, whatever the deletion of the source did; when the
    deletion is refused the source is still present next to the
    populated destination. *)
Theorem rename_success_despite_unlink (env : Faults) (oldPath newPath : string)
    (fs : Files) (e : JsError) (content : string) :
  renameFault env = Some e -> isEXDEV e = true ->
  pipeFault env = NoPipeFault ->
  fs !! oldPath = Some content ->
  exists fs',
    rename env oldPath newPath fs = ([None], fs') /\
    (forall ue, unlinkFault env = Some ue ->
       fs' !! oldPath = Some content /\ fs' !! newPath = Some content) /\
    (unlinkFault env = None -> oldPath <> newPath ->
       fs' !! oldPath = None /\ fs' !! newPath = Some content).
Proof.
  intros Hr Hc Hp Hold.
  unfold rename, MoveFallback.rename, originalRename, reported,
    originalRenameSync, pipe, unlink, unlinkSync.
  rewrite Hr, Hc, Hp, Hold. cbn [fold_left onStreamEvent]. unfold reported.
  destruct (unlinkFault env) as [ue|].
  - eexists. split; [reflexivity|]. split; [|done].
    intros ? _. rewrite lookup_insert_eq.
    destruct (decide (newPath = oldPath)) as [->|Hne].
    + by rewrite lookup_insert_eq.
    + by rewrite lookup_insert_ne.
  - destruct (decide (oldPath = newPath)) as [->|Hne].
    + rewrite lookup_insert_eq. eexists. split; [reflexivity|]. done.
    + rewrite lookup_insert_ne, Hold by done.
      eexists. split; [reflexivity|]. split; [done|]. intros _ _.
      by rewrite lookup_delete_eq, lookup_delete_ne, lookup_insert_eq.
Qed.

Lemma rename_success_despite_unlink_witness :
  exists fs',
    rename refusedDeletion "/tmp/rootfs.img" "/home/u/rootfs.img" stagedBundle
      = ([None], fs') /\
    fs' !! "/tmp/rootfs.img" = Some "bundle" /\
    fs' !! "/home/u/rootfs.img" = Some "bundle".
Proof.
  destruct (rename_success_despite_unlink refusedDeletion
              "/tmp/rootfs.img" "/home/u/rootfs.img" stagedBundle EXDEV "bundle"
              eq_refl eq_refl eq_refl)
    as (fs' & Hrun & Hboth & _).
  { unfold stagedBundle. apply lookup_singleton_eq. }
  exists fs'. split; [exact Hrun|]. exact (Hboth EACCES eq_refl).
Defined.

End MoveFacts.

(** ** Properties of the substitution registry *)

Section LoaderFacts.
Import Loader.
Variable STUB_PATH : string.






Lemma cachedStub_None st :
  swiftStubCache st = None -> cachedStub st = None.
Proof. unfold cachedStub. by intros ->. Qed.









End LoaderFacts.

(** The scenario of the design: an ordinary component goes the original
    way, the add-on is loaded once and then served from the cache. *)
Example loader_scenario :
  exists st,
    Loader.serve Loader.demoStubPath 2
      ["nativeWidget.bin"; "swift_addon.node"; "swift_addon.node"]
      (Loader.initial Loader.demoDisk)
    = Some ([Normal (Loader.Ref 0); Normal (Loader.Ref 1); Normal (Loader.Ref 1)],
            st) /\
    Loader.initLog st = [Loader.demoStubPath; "nativeWidget.bin"].
Proof. eexists. split; [by vm_compute | reflexivity]. Qed.



(** ** Properties of the handler interception *)

Section DispatchFacts.
Import Dispatch.



Lemma anyKeyMatches_firstMatch table channel :
  anyKeyMatches table channel = bool_decide (is_Some (firstMatch table channel)).
Proof.
  induction table as [|[p h] rest IH]; cbn [anyKeyMatches firstMatch].
  - symmetry. apply bool_decide_eq_false. by intros [? ?].
  - destruct (includes channel p); [|done].
    symmetry. by apply bool_decide_eq_true.
Qed.



Section Surface.
Context {Registry : Type}.
Variable origHandle : string -> Handler -> M Registry unit.
Variable origRemoveHandler : string -> M Registry unit.

Lemma handleWith_registers wrap channel handler :
  exists effective,
    handleWith Registry origHandle wrap channel handler
    = origHandle channel effective.
Proof.
  unfold handleWith.
  destruct (firstMatch FORCE_OVERRIDES channel); [eauto|].
  destruct (firstMatch ERROR_FALLBACKS channel); eauto.
Qed.


(** For any registry: removal of a force-overridden channel does not
    reach the original entry point; removal of any other channel is the
    original removal. *)
Lemma removeHandler_cases channel :
  (anyKeyMatches FORCE_OVERRIDES channel = true ->
     forall reg, removeHandler Registry origRemoveHandler channel reg
                 = (Normal tt, reg)) /\
  (anyKeyMatches FORCE_OVERRIDES channel = false ->
     removeHandler Registry origRemoveHandler channel
     = origRemoveHandler channel).
Proof. unfold removeHandler. split; intros ->; done. Qed.
End Surface.

End DispatchFacts.

Section RegistryFacts.
Import Dispatch Dispatch.ElectronIpc.


Lemma wrappedHandler_never_rejects (channel : string) (guest : Handler)
    (args : list JsValue) (e : JsError) :
  Wrapper.wrappedHandler channel guest args <> Rejected e.
Proof.
  unfold Wrapper.wrappedHandler.
  destruct (String.eqb (Wrapper.methodOf channel) "getRunningStatus"); [done|].
  destruct (String.eqb (Wrapper.methodOf channel) "getDownloadStatus"); [done|].
  destruct (String.eqb (Wrapper.methodOf channel) "isSupported"
            || String.eqb (Wrapper.methodOf channel) "getSupportStatus"); [done|].
  by destruct (guest args).
Qed.





Lemma step_keeps_entry wc r (reg : Registry) channel h :
  anyKeyMatches FORCE_OVERRIDES channel = true ->
  reg !! channel = Some h ->
  step wc r reg !! channel = Some h.
Proof.
  intros Hforce Hreg. destruct r as [c guest|c]; cbn [step].
  - assert (exists effective,
               (if wc then wcHandle else handle) c guest reg
               = origHandle c effective reg) as [effective ->].
    { destruct wc; unfold wcHandle, handle, Dispatch.wcHandle, Dispatch.handle.
      - destruct (handleWith_registers origHandle safeHandlerWc c guest)
          as [eff Heff]. exists eff. by rewrite Heff.
      - destruct (handleWith_registers origHandle safeHandler c guest)
          as [eff Heff]. exists eff. by rewrite Heff. }
    unfold origHandle. destruct (reg !! c) eqn:Hc; [done|]. cbn [snd].
    rewrite lookup_insert_ne; [done|]. intros ->. congruence.
  - unfold removeHandler, Dispatch.removeHandler.
    destruct (anyKeyMatches FORCE_OVERRIDES c) eqn:Hc; [done|].
    unfold origRemoveHandler. cbn [snd].
    rewrite lookup_delete_ne; [done|]. intros ->. congruence.
Qed.

Lemma run_keeps_entry wc rs : forall (reg : Registry) channel h,
  anyKeyMatches FORCE_OVERRIDES channel = true ->
  reg !! channel = Some h ->
  run wc rs reg !! channel = Some h.
Proof.
  induction rs as [|r rs IH]; intros reg channel h Hforce Hreg; [done|].
  cbn [run fold_left]. apply IH; [done|]. by apply step_keeps_entry.
Qed.

(** C4. For a channel name that contains a force-override pattern a
    removal call returns without reaching the original removal entry
    point and leaves the registry as it is; once such a channel has
    been registered the override stays registered through any sequence
    of registration and removal calls on the surface.  For a channel
    name that contains no force-override pattern the removal call is
    the original removal call. *)
Theorem force_override_permanent (channel : string) :
  (anyKeyMatches FORCE_OVERRIDES channel = true ->
     (forall (R : Type) (origRemove : string -> M R unit) (reg : R),
         Dispatch.removeHandler R origRemove channel reg = (Normal tt, reg)) /\
     (forall (wc : bool) (guest : Handler) (requests : list Request),
         exists override,
           firstMatch FORCE_OVERRIDES channel = Some override /\
           run wc (Register channel guest :: requests) ∅ !! channel
           = Some override) /\
     (forall (wc : bool) (reg : Registry) (h : Handler) (requests : list Request),
         reg !! channel = Some h ->
         run wc requests reg !! channel = Some h)) /\
  (anyKeyMatches FORCE_OVERRIDES channel = false ->
     forall (R : Type) (origRemove : string -> M R unit),
       Dispatch.removeHandler R origRemove channel = origRemove channel).
Proof.
  split.
  - intros Hforce. split; [|split].
    + intros R origRemove reg.
      by apply (removeHandler_cases origRemove channel).
    + intros wc guest requests.
      pose proof Hforce as Hsome.
      rewrite anyKeyMatches_firstMatch in Hsome.
      apply bool_decide_eq_true in Hsome as [override Hover].
      exists override. split; [done|].
      cbn [run fold_left]. apply run_keeps_entry; [done|].
      cbn [step].
      destruct wc; unfold wcHandle, handle, Dispatch.wcHandle, Dispatch.handle,
        handleWith; rewrite Hover; unfold origHandle;
        rewrite lookup_empty; cbn [snd]; by rewrite lookup_insert_eq.
    + intros wc reg h requests Hreg. by apply run_keeps_entry.
  - intros Hnone R origRemove.
    by apply (removeHandler_cases origRemove channel).
Qed.

Lemma force_override_permanent_witness :
  run false
    [ Register "$eipc_message$_88f6_$_AppFeatures_$_getFeatureFlags" guestFails;
      Remove "$eipc_message$_88f6_$_AppFeatures_$_getFeatureFlags";
      Remove "$eipc_message$_88f6_$_AppFeatures_$_getFeatureFlags" ] ∅
    !! "$eipc_message$_88f6_$_AppFeatures_$_getFeatureFlags"
  = Some getFeatureFlags /\
  removeHandler "$eipc_message$_88f6_$_Account_$_logout"
  = origRemoveHandler "$eipc_message$_88f6_$_Account_$_logout".
Proof.
  split.
  - destruct (force_override_permanent
                "$eipc_message$_88f6_$_AppFeatures_$_getFeatureFlags")
      as [Hforce _].
    destruct (Hforce eq_refl) as (_ & Hreg & _).
    destruct (Hreg false guestFails
                [ Remove "$eipc_message$_88f6_$_AppFeatures_$_getFeatureFlags";
                  Remove "$eipc_message$_88f6_$_AppFeatures_$_getFeatureFlags" ])
      as (override & Hover & Hrun).
    rewrite Hrun. f_equal.
    vm_compute in Hover. by injection Hover as <-.
  - destruct (force_override_permanent "$eipc_message$_88f6_$_Account_$_logout")
      as [_ Hother].
    exact (Hother eq_refl Registry origRemoveHandler).
Defined.

End RegistryFacts.

(** ** Properties of the window-constructor interception *)

Section WindowFacts.
Import Window.

Lemma options_eq (o o' : Options) :
  extensible o = extensible o' ->
  (forall key, props o !! key = props o' !! key) ->
  o = o'.
Proof.
  destruct o as [m e], o' as [m' e']. cbn. intros -> Hm.
  f_equal. by apply map_eq.
Qed.

Lemma get_assign_ne key k v o :
  key <> k -> get key (assign k v o) = get key o.
Proof.
  intros Hne. unfold get, assign. cbn [props].
  by rewrite lookup_partial_alter_ne.
Qed.

Lemma get_remove_ne key k o :
  key <> k -> get key (remove k o) = get key o.
Proof.
  intros Hne. unfold get, remove. cbn [props].
  by rewrite lookup_partial_alter_ne.
Qed.

Lemma get_assign_eq k v o :
  canAssign k o = true -> get k (assign k v o) = Some v.
Proof.
  unfold canAssign, get, assign. cbn [props].
  rewrite lookup_partial_alter_eq.
  destruct (props o !! k) as [p|]; cbn; by intros ->.
Qed.

Lemma get_remove_eq k o :
  canDelete k o = true -> get k (remove k o) = None.
Proof.
  unfold canDelete, get, remove. cbn [props].
  rewrite lookup_partial_alter_eq.
  destruct (props o !! k) as [p|]; cbn; [by intros ->|done].
Qed.

Lemma canAssign_assign_ne key k v o :
  key <> k -> canAssign key (assign k v o) = canAssign key o.
Proof.
  intros Hne. unfold canAssign, assign. cbn [props extensible].
  by rewrite lookup_partial_alter_ne.
Qed.

Lemma canDelete_assign_ne key k v o :
  key <> k -> canDelete key (assign k v o) = canDelete key o.
Proof.
  intros Hne. unfold canDelete, assign. cbn [props].
  by rewrite lookup_partial_alter_ne.
Qed.

Lemma canDelete_remove_ne key k o :
  key <> k -> canDelete key (remove k o) = canDelete key o.
Proof.
  intros Hne. unfold canDelete, remove. cbn [props].
  by rewrite lookup_partial_alter_ne.
Qed.

Lemma ordinary_can (o : Options) (key : string) :
  ordinary o -> canAssign key o = true /\ canDelete key o = true.
Proof.
  intros [Hext Hall]. unfold canAssign, canDelete.
  destruct (props o !! key) as [p|] eqn:Hp; [|done].
  by destruct (Hall _ _ Hp).
Qed.

Lemma ordinary_literal fields : ordinary (literal fields).
Proof.
  split; [done|]. intros key p. unfold literal. cbn [props].
  rewrite lookup_fmap. by destruct (fields !! key); intros [= <-].
Qed.

Lemma inert_freeze o : inert (freeze o).
Proof.
  split; [done|]. intros key p. unfold freeze. cbn [props].
  rewrite lookup_fmap. by destruct (props o !! key); intros [= <-].
Qed.

(** On an object that takes no write, an assignment and a deletion
    leave the object as it is. *)
Lemma inert_assign key v o : inert o -> assign key v o = o.
Proof.
  intros [Hext Hall]. apply options_eq; [done|]. intros k.
  unfold assign. cbn [props]. rewrite lookup_partial_alter.
  case_decide as Hk; [subst k|done]. rewrite Hext.
  destruct (props o !! key) as [p|] eqn:Hp; [|done]. cbn.
  by destruct (Hall _ _ Hp) as [-> _].
Qed.

Lemma inert_remove key o : inert o -> remove key o = o.
Proof.
  intros [Hext Hall]. apply options_eq; [done|]. intros k.
  unfold remove. cbn [props]. rewrite lookup_partial_alter.
  case_decide as Hk; [subst k|done].
  destruct (props o !! key) as [p|] eqn:Hp; [|done]. cbn.
  by destruct (Hall _ _ Hp) as [_ ->].
Qed.

(** On a Linux host a frameless transparent request does not reach the
    constructor unmodified, the trap adds a field; and on a host that is
    neither the guest's nor Linux a hidden title bar is not normalized.
    C8 as stated, for every host other than the one the guest was built
    for, does not hold. *)
Lemma overlay_request_is_modified :
  passed (construct "linux" (Some overlayIntent))
    = assign "autoHideMenuBar" (VBool true) overlayIntent /\
  get "autoHideMenuBar" (passed (construct "linux" (Some overlayIntent)))
    = Some (VBool true) /\
  get "autoHideMenuBar" overlayIntent = None /\
  passed (construct "linux" (Some overlayIntent)) <> overlayIntent /\
  get "titleBarStyle" (passed (construct "win32" (Some hiddenTitleBar)))
    = Some (VStr "hidden") /\
  ~ (forall (REAL_PLATFORM : string) (options : Options),
       REAL_PLATFORM <> "darwin" ->
       (get "frame" options = Some (VBool false) ->
        get "transparent" options = Some (VBool true) ->
        passed (construct REAL_PLATFORM (Some options)) = options) /\
       (get "titleBarStyle" options = Some (VStr "hidden") ->
        get "frame" (passed (construct REAL_PLATFORM (Some options)))
          = Some (VBool true) /\
        get "titleBarStyle" (passed (construct REAL_PLATFORM (Some options)))
          = Some (VStr "default") /\
        get "titleBarOverlay" (passed (construct REAL_PLATFORM (Some options)))
          = None)).
Proof.
  assert (get "autoHideMenuBar" (passed (construct "linux" (Some overlayIntent)))
          = Some (VBool true)) as Hadded by reflexivity.
  assert (passed (construct "linux" (Some overlayIntent)) <> overlayIntent) as Hmod.
  { intros Hsame. rewrite Hsame in Hadded. discriminate Hadded. }
  split; [reflexivity|]. split; [exact Hadded|]. split; [reflexivity|].
  split; [exact Hmod|]. split; [reflexivity|].
  intros Hclaim.
  destruct (Hclaim "linux" overlayIntent ltac:(discriminate)) as [Hsame _].
  exact (Hmod (Hsame eq_refl eq_refl)).
Qed.

(** On a host that is neither the guest's nor Linux nothing is
    normalized. *)
Lemma other_host_not_normalized :
  passed (construct "win32" (Some hiddenTitleBar)) = hiddenTitleBar /\
  get "titleBarStyle" (passed (construct "win32" (Some hiddenTitleBar)))
    = Some (VStr "hidden") /\
  get "frame" (passed (construct "win32" (Some hiddenTitleBar))) = None.
Proof. repeat split; reflexivity. Qed.

Lemma hidden_title_bar_on_linux :
  passed (construct "linux" (Some hiddenTitleBar))
  = literal {[ "frame" := VBool true; "titleBarStyle" := VStr "default";
               "autoHideMenuBar" := VBool true ]}.
Proof. by vm_compute. Qed.

(** A frozen request for a hidden title bar reaches the constructor as
    it was given. *)
Example frozen_request_not_normalized :
  passed (construct "linux" (Some (freeze hiddenTitleBar))) = freeze hiddenTitleBar /\
  get "titleBarStyle" (passed (construct "linux" (Some (freeze hiddenTitleBar))))
    = Some (VStr "hidden") /\
  get "frame" (passed (construct "linux" (Some (freeze hiddenTitleBar)))) = None /\
  get "autoHideMenuBar" (passed (construct "linux" (Some (freeze hiddenTitleBar))))
    = None.
Proof. split; [by vm_compute|]. repeat split; reflexivity. Qed.

(** C8, as amended.  On a host whose real platform is Linux, for an
    options object with data properties of its own: a request with
    [frame] strictly [false] and a truthy [transparent] reaches the
    constructor with every field other than [autoHideMenuBar] as it was
    given; any other request, so also one that only asks for a hidden
    title bar, reaches it with [frame: true] and
    [titleBarStyle: 'default'] where the object lets these be assigned,
    without [titleBarOverlay] and [trafficLightPosition] where these can
    be deleted, and with its remaining fields other than
    [autoHideMenuBar] as given.  An ordinary object, such as an object
    literal, lets every property be assigned and deleted; an object that
    takes no write, such as a frozen one, reaches the constructor as it
    was given.  On a host whose real platform is not Linux the request
    is passed on as it is. *)
Theorem window_normalization (arg0 : option Options) :
  let options := match arg0 with Some o => o | None => literal ∅ end in
  (frameIsFalse options && transparentSet options = true ->
     forall field, field <> "autoHideMenuBar" ->
       get field (passed (construct "linux" arg0)) = get field options) /\
  (frameIsFalse options && transparentSet options = false ->
     (canAssign "frame" options = true ->
        get "frame" (passed (construct "linux" arg0)) = Some (VBool true)) /\
     (canAssign "titleBarStyle" options = true ->
        get "titleBarStyle" (passed (construct "linux" arg0))
          = Some (VStr "default")) /\
     (canDelete "titleBarOverlay" options = true ->
        get "titleBarOverlay" (passed (construct "linux" arg0)) = None) /\
     (canDelete "trafficLightPosition" options = true ->
        get "trafficLightPosition" (passed (construct "linux" arg0)) = None) /\
     forall field,
       field <> "autoHideMenuBar" -> field <> "frame" ->
       field <> "titleBarStyle" -> field <> "titleBarOverlay" ->
       field <> "trafficLightPosition" ->
       get field (passed (construct "linux" arg0)) = get field options) /\
  (ordinary options ->
     forall key, canAssign key options = true /\ canDelete key options = true) /\
  (forall fields, ordinary (literal fields)) /\
  (get "frame" (passed (construct "linux" (Some hiddenTitleBar)))
     = Some (VBool true) /\
   get "titleBarStyle" (passed (construct "linux" (Some hiddenTitleBar)))
     = Some (VStr "default") /\
   get "titleBarOverlay" (passed (construct "linux" (Some hiddenTitleBar)))
     = None) /\
  (inert options ->
     forall REAL_PLATFORM, passed (construct REAL_PLATFORM arg0) = options) /\
  (forall o, inert (freeze o)) /\
  (forall REAL_PLATFORM, REAL_PLATFORM <> "linux" ->
     passed (construct REAL_PLATFORM arg0) = options).
Proof.
  intros options.
  split; [|split; [|split; [|split; [|split; [|split; [|split]]]]]].
  - unfold construct. fold options.
    change (String.eqb "linux" "linux") with true. cbv iota.
    intros -> field Hfield. cbn [passed]. by rewrite get_assign_ne.
  - unfold construct. fold options.
    change (String.eqb "linux" "linux") with true. cbv iota.
    intros ->. cbn [passed].
    split; [|split; [|split; [|split]]].
    + intros Hcan.
      rewrite get_assign_ne, !get_remove_ne by done.
      apply get_assign_eq. by rewrite canAssign_assign_ne.
    + intros Hcan.
      rewrite get_assign_ne, !get_remove_ne, get_assign_ne by done.
      by apply get_assign_eq.
    + intros Hcan.
      rewrite get_assign_ne, get_remove_ne by done.
      apply get_remove_eq. by rewrite !canDelete_assign_ne.
    + intros Hcan.
      rewrite get_assign_ne by done.
      apply get_remove_eq.
      by rewrite canDelete_remove_ne, !canDelete_assign_ne.
    + intros field ? ? ? ? ?.
      by rewrite get_assign_ne, !get_remove_ne, !get_assign_ne.
  - intros Hord key. by apply ordinary_can.
  - apply ordinary_literal.
  - repeat split; reflexivity.
  - intros Hinert REAL_PLATFORM. unfold construct. fold options.
    destruct (String.eqb REAL_PLATFORM "linux"); [|done]. cbn [passed].
    destruct (frameIsFalse options && transparentSet options).
    + by apply inert_assign.
    + by rewrite (inert_assign "titleBarStyle"), (inert_assign "frame"),
        (inert_remove "titleBarOverlay"), (inert_remove "trafficLightPosition"),
        (inert_assign "autoHideMenuBar").
  - apply inert_freeze.
  - intros REAL_PLATFORM Hne. unfold construct. fold options.
    destruct (String.eqb_spec REAL_PLATFORM "linux"); [done|]. done.
Qed.

Lemma window_normalization_witness :
  get "frame" (passed (construct "linux" (Some overlayIntent)))
    = Some (VBool false) /\
  get "transparent" (passed (construct "linux" (Some overlayIntent)))
    = Some (VBool true) /\
  get "titleBarStyle" (passed (construct "linux" (Some overlayIntent))) = None /\
  get "frame" (passed (construct "linux" (Some hiddenTitleBar)))
    = Some (VBool true) /\
  get "titleBarStyle" (passed (construct "linux" (Some hiddenTitleBar)))
    = Some (VStr "default") /\
  passed (construct "linux" (Some (freeze hiddenTitleBar))) = freeze hiddenTitleBar /\
  passed (construct "win32" (Some hiddenTitleBar)) = hiddenTitleBar.
Proof.
  destruct (window_normalization (Some overlayIntent)) as (Hkeep & _).
  destruct (window_normalization (Some hiddenTitleBar))
    as (_ & Hnorm & Hcan & Hlit & _ & _ & _ & Hother).
  destruct (window_normalization (Some (freeze hiddenTitleBar)))
    as (_ & _ & _ & _ & _ & Hinert & Hfrozen & _).
  specialize (Hkeep eq_refl).
  destruct (Hnorm eq_refl) as (Hframe & Hstyle & _).
  destruct (Hcan (Hlit _) "frame") as [Hcf _].
  destruct (Hcan (Hlit _) "titleBarStyle") as [Hcs _].
  split; [rewrite Hkeep by discriminate; reflexivity|].
  split; [rewrite Hkeep by discriminate; reflexivity|].
  split; [rewrite Hkeep by discriminate; reflexivity|].
  split; [exact (Hframe Hcf)|].
  split; [exact (Hstyle Hcs)|].
  split; [exact (Hinert (Hfrozen _) "linux")|].
  apply Hother. discriminate.
Defined.

End WindowFacts.

(** ** Properties of the top-level guard *)

Section GuardFacts.
Import Guard.

(** An error that says "missing handler" is thrown again, and so is one
    that says "not a function" without "is": with the wording of C9 for
    the two substrings the claim does not hold. *)
Lemma missing_handler_is_rethrown :
  includes "missing handler" "missing handler" = true /\
  onUncaughtException (mkError "missing handler")
    = Rethrown (mkError "missing handler") /\
  includes "callback not a function" "not a function" = true /\
  onUncaughtException (mkError "callback not a function")
    = Rethrown (mkError "callback not a function") /\
  ~ (forall (error : JsError) (msg : string),
       message error = Some msg ->
       includes msg "not a function" = true \/
       includes msg "missing handler" = true ->
       exists logged, onUncaughtException error = Suppressed logged).
Proof.
  repeat (split; [reflexivity|]).
  intros Hclaim.
  destruct (Hclaim (mkError "missing handler") "missing handler" eq_refl)
    as [logged Hlogged]; [by right|].
  discriminate Hlogged.
Qed.

Lemma includes_nonempty msg pat :
  pat <> EmptyString -> includes msg pat = true -> msg <> EmptyString.
Proof. intros Hpat Hinc ->. by rewrite includes_empty in Hinc. Qed.

(** C9, as amended.  An uncaught error whose message contains
    ["is not a function"] or ["No handler registered"] is logged and
    suppressed; every other uncaught error, one without a message
    included, is thrown again from the listener, which ends the
    process. *)
Theorem uncaught_guard (error : JsError) :
  (forall msg, message error = Some msg ->
     includes msg "is not a function" = true \/
     includes msg "No handler registered" = true ->
     onUncaughtException error = Suppressed msg) /\
  ((forall msg, message error = Some msg ->
      includes msg "is not a function" = false /\
      includes msg "No handler registered" = false) ->
     onUncaughtException error = Rethrown error).
Proof.
  unfold onUncaughtException. split.
  - intros msg -> Hinc.
    assert (msg <> EmptyString) as Hne.
    { destruct Hinc as [H|H]; eapply includes_nonempty; try exact H; done. }
    apply String.eqb_neq in Hne. rewrite Hne. cbn [negb andb].
    destruct Hinc as [-> | ->]; [done|]. by rewrite orb_true_r.
  - intros Hnone. destruct (message error) as [msg|]; [|done].
    destruct (Hnone msg eq_refl) as [-> ->]. by rewrite andb_false_r.
Qed.

Lemma uncaught_guard_witness :
  onUncaughtException (mkError "TypeError: vm.start is not a function")
    = Suppressed "TypeError: vm.start is not a function" /\
  onUncaughtException (mkError "ENOSPC: no space left on device")
    = Rethrown (mkError "ENOSPC: no space left on device").
Proof.
  split.
  - destruct (uncaught_guard (mkError "TypeError: vm.start is not a function"))
      as [Hs _].
    apply Hs; [reflexivity | by left].
  - destruct (uncaught_guard (mkError "ENOSPC: no space left on device"))
      as [_ Hr].
    apply Hr. intros msg [= <-]. split; reflexivity.
Defined.

End GuardFacts.

(** ** Properties of the staging set-up *)

Section VmBundleFacts.
Import VmBundle.

Lemma append_cancel_l s a b : s +:+ a = s +:+ b -> a = b.
Proof.
  induction s as [|c s IH]; [done|].
  change (String c (s +:+ a) = String c (s +:+ b) -> a = b).
  intros [= H]. by apply IH.
Qed.

Lemma append_assoc_l s a b : (s +:+ a) +:+ b = s +:+ (a +:+ b).
Proof.
  induction s as [|c s IH]; [done|].
  change (String c (s +:+ a) +:+ b = String c (s +:+ (a +:+ b))).
  change (String c ((s +:+ a) +:+ b) = String c (s +:+ (a +:+ b))).
  by rewrite IH.
Qed.

Lemma markerPath_unfold B m :
  pathJoin (claudeVmBundle B) m = B +:+ ("/claudevm.bundle/" +:+ m).
Proof. unfold claudeVmBundle, pathJoin. by rewrite append_assoc_l. Qed.

Lemma markerPath_inj B m1 m2 :
  pathJoin (claudeVmBundle B) m1 = pathJoin (claudeVmBundle B) m2 -> m1 = m2.
Proof.
  rewrite !markerPath_unfold. intros H. apply append_cancel_l in H.
  cbn in H. by simplify_eq.
Qed.

Lemma markerPath_not_tmp B m : pathJoin (claudeVmBundle B) m <> vmTmpDir B.
Proof.
  rewrite markerPath_unfold. unfold vmTmpDir, pathJoin. intros H.
  apply append_cancel_l in H. cbn in H. discriminate H.
Qed.

Lemma markerPath_not_bundle B m : pathJoin (claudeVmBundle B) m <> claudeVmBundle B.
Proof.
  rewrite markerPath_unfold. unfold claudeVmBundle, pathJoin. intros H.
  apply append_cancel_l in H. cbn in H. simplify_eq.
Qed.

Lemma marker_not_version m : In m markers -> m <> "version".
Proof. unfold markers. cbn. intros H. intuition (subst; discriminate). Qed.

Section WithVerdicts.
Variable refuses : string -> option JsError.
Variable B : string.

(** The primitives only ever add to the files and to the directories. *)
Lemma mkdirSync_effect p h r h' :
  mkdirSync refuses p h = (r, h') ->
  files h' = files h /\ env h' = env h /\ tmpdirOverride h' = tmpdirOverride h /\
  (match r with
   | Normal _ => refuses p = None /\ files h !! p = None /\
                 dirs h' = ({[ p ]} ∪ dirs h)
   | Abrupt _ => h' = h
   end).
Proof.
  unfold mkdirSync. destruct (refuses p); [by intros [= <- <-]|].
  destruct (files h !! p); intros [= <- <-]; done.
Qed.

Lemma writeFileSync_effect p content h r h' :
  writeFileSync refuses p content h = (r, h') ->
  dirs h' = dirs h /\ env h' = env h /\ tmpdirOverride h' = tmpdirOverride h /\
  (match r with
   | Normal _ => refuses p = None /\ (p ∉ dirs h) /\
                 files h' = <[p := content]> (files h)
   | Abrupt _ => h' = h
   end).
Proof.
  unfold writeFileSync. destruct (refuses p); [by intros [= <- <-]|].
  case_bool_decide; intros [= <- <-]; done.
Qed.

Lemma existsSync_true p h :
  existsSync p h = true <-> is_Some (files h !! p) \/ p ∈ dirs h.
Proof.
  unfold existsSync. rewrite orb_true_iff, !bool_decide_eq_true. done.
Qed.

(** One marker: an existing path is left alone, a missing one is
    written. *)
Lemma placeMarker_effect m h r h' :
  placeMarker refuses B m h = (r, h') ->
  dirs h' = dirs h /\ env h' = env h /\ tmpdirOverride h' = tmpdirOverride h /\
  (match r with
   | Normal _ =>
       (existsSync (pathJoin (claudeVmBundle B) m) h = true /\ h' = h) \/
       (existsSync (pathJoin (claudeVmBundle B) m) h = false /\
        files h' = <[pathJoin (claudeVmBundle B) m :=
                       if String.eqb m "config.json" then configJson
                       else placeholder]> (files h))
   | Abrupt _ => existsSync (pathJoin (claudeVmBundle B) m) h = false /\ h' = h
   end).
Proof.
  unfold placeMarker.
  destruct (existsSync (pathJoin (claudeVmBundle B) m) h) eqn:He.
  { intros [= <- <-]. repeat split. by left. }
  destruct (String.eqb m "config.json"); intros Hw;
    apply writeFileSync_effect in Hw as (Hd & Hv & Ht & Hr);
    (split; [done|]; split; [done|]; split; [done|]);
    destruct r; [right; by destruct Hr as (_ & _ & ->) | done
                |right; by destruct Hr as (_ & _ & ->) | done].
Qed.

Lemma placeMarker_files_grow m h r h' p c :
  placeMarker refuses B m h = (r, h') ->
  files h !! p = Some c -> files h' !! p = Some c.
Proof.
  intros Hm Hp. apply placeMarker_effect in Hm as (_ & _ & _ & Hr).
  destruct r as [[]|e].
  - destruct Hr as [[_ ->]|[Hne ->]]; [done|].
    rewrite lookup_insert_ne; [done|]. intros <-.
    assert (existsSync (pathJoin (claudeVmBundle B) m) h = true) as Hex
      by (apply existsSync_true; left; eauto).
    congruence.
  - by destruct Hr as [_ ->].
Qed.

Lemma placeMarkers_effect ms : forall h r h',
  placeMarkers refuses B ms h = (r, h') ->
  dirs h' = dirs h /\ env h' = env h /\ tmpdirOverride h' = tmpdirOverride h /\
  (forall p c, files h !! p = Some c -> files h' !! p = Some c) /\
  (forall p, files h !! p = None ->
     (forall m, In m ms -> p <> pathJoin (claudeVmBundle B) m) ->
     files h' !! p = None).
Proof.
  induction ms as [|m ms IH]; intros h r h'; cbn [placeMarkers].
  - intros [= <- <-]. done.
  - unfold bind.
    destruct (placeMarker refuses B m h) as [[[]|e] h1] eqn:Hm.
    + intros Hrest. destruct (IH _ _ _ Hrest) as (Hd & Hv & Ht & Hgrow & Hnone).
      pose proof (placeMarker_effect _ _ _ _ Hm) as (Hd1 & Hv1 & Ht1 & Hr1).
      split; [congruence|]. split; [congruence|]. split; [congruence|]. split.
      * intros p c Hp. apply Hgrow. by eapply placeMarker_files_grow.
      * intros p Hp Hnot. apply Hnone.
        -- destruct Hr1 as [[_ ->]|[_ ->]]; [done|].
           rewrite lookup_insert_ne; [done|].
           intros Heq. apply (Hnot m); [by left | done].
        -- intros m' Hm'. apply Hnot. by right.
    + intros [= <- <-].
      pose proof (placeMarker_effect _ _ _ _ Hm) as (Hd1 & Hv1 & Ht1 & _ & ->).
      done.
Qed.

(** After a complete pass every marker exists. *)
Lemma placeMarkers_all_exist ms : forall h h',
  placeMarkers refuses B ms h = (Normal tt, h') ->
  forall m, In m ms -> existsSync (pathJoin (claudeVmBundle B) m) h' = true.
Proof.
  induction ms as [|m ms IH]; intros h h'; cbn [placeMarkers]; [done|].
  unfold bind.
  destruct (placeMarker refuses B m h) as [[[]|e] h1] eqn:Hm; [|done].
  intros Hrest m' [<-|Hin]; [|by eapply IH].
  pose proof (placeMarkers_effect _ _ _ _ Hrest) as (Hd & _ & _ & Hgrow & _).
  pose proof (placeMarker_effect _ _ _ _ Hm) as (_ & _ & _ & Hr1).
  apply existsSync_true.
  destruct Hr1 as [[Hex ->]|[_ Hf]].
  - apply existsSync_true in Hex as [[c Hc]|Hdir].
    + left. exists c. by apply Hgrow.
    + right. by rewrite Hd.
  - left. eexists. apply Hgrow. rewrite Hf. apply lookup_insert_eq.
Qed.





(** What a run of the statements inside [try] looks like. *)
Lemma setupBody_cases h r h' :
  setupBody refuses B h = (r, h') ->
  (* the first directory could not be made: nothing happened *)
  (h' = h /\ exists e, r = Abrupt e /\ mkdirSync refuses (vmTmpDir B) h = (Abrupt e, h)) \/
  (* it could: the redirection is in place, whatever follows *)
  (refuses (vmTmpDir B) = None /\ files h !! vmTmpDir B = None /\
   env h' = <["TEMP" := vmTmpDir B]> (<["TMP" := vmTmpDir B]>
              (<["TMPDIR" := vmTmpDir B]> (env h))) /\
   tmpdirOverride h' = Some (vmTmpDir B) /\
   vmTmpDir B ∈ dirs h' /\
   (forall p c, files h !! p = Some c -> p <> versionPath B ->
      files h' !! p = Some c) /\
   (forall p, files h !! p = None ->
      (forall m, In m markers -> p <> pathJoin (claudeVmBundle B) m) ->
      p <> versionPath B -> files h' !! p = None) /\
   (r = Normal tt ->
      claudeVmBundle B ∈ dirs h' /\
      (forall m, In m markers ->
         existsSync (pathJoin (claudeVmBundle B) m) h' = true) /\
      (forall m, In m markers ->
         existsSync (pathJoin (claudeVmBundle B) m) h = false ->
         files h' !! pathJoin (claudeVmBundle B) m
         = Some (if String.eqb m "config.json" then configJson else placeholder)) /\
      files h' !! versionPath B = Some versionText)).
Proof.
  unfold setupBody, bind.
  destruct (mkdirSync refuses (vmTmpDir B) h) as [[[]|e] h1] eqn:H1.
  2:{ intros [= <- <-]. left.
      pose proof (mkdirSync_effect _ _ _ _ H1) as (_ & _ & _ & ->). eauto. }
  pose proof (mkdirSync_effect _ _ _ _ H1) as (Hf1 & Hv1 & Ht1 & Hr1 & Hn1 & Hd1).
  match goal with
  | |- context [mkdirSync refuses (claudeVmBundle B) ?s] => set (h2 := s)
  end.
  assert (files h2 = files h /\ dirs h2 = {[ vmTmpDir B ]} ∪ dirs h /\
          env h2 = <["TEMP" := vmTmpDir B]> (<["TMP" := vmTmpDir B]>
                     (<["TMPDIR" := vmTmpDir B]> (env h))) /\
          tmpdirOverride h2 = Some (vmTmpDir B)) as (Hf2 & Hd2 & Hv2 & Ht2).
  { subst h2. cbn. by rewrite Hf1, Hd1, Hv1. }
  clearbody h2.
  intros Hrun. right.
  destruct (mkdirSync refuses (claudeVmBundle B) h2) as [[[]|e] h3] eqn:H3.
  2:{ injection Hrun as <- <-.
      pose proof (mkdirSync_effect _ _ _ _ H3) as (_ & _ & _ & ->).
      split; [done|]. split; [done|]. split; [done|]. split; [done|].
      split; [rewrite Hd2, !elem_of_union, !elem_of_singleton; auto|].
      split; [intros p c Hp _; by rewrite Hf2|].
      split; [intros p Hp _ _; by rewrite Hf2|]. done. }
  pose proof (mkdirSync_effect _ _ _ _ H3) as (Hf3 & Hv3 & Ht3 & _ & _ & Hd3).
  destruct (placeMarkers refuses B markers h3) as [[[]|e] h4] eqn:H4.
  2:{ injection Hrun as <- <-.
      pose proof (placeMarkers_effect _ _ _ _ H4) as (Hd4 & Hv4 & Ht4 & Hg4 & Hno4).
      split; [done|]. split; [done|].
      split; [by rewrite Hv4, Hv3, Hv2|]. split; [by rewrite Ht4, Ht3, Ht2|].
      split; [rewrite Hd4, Hd3, Hd2, !elem_of_union, !elem_of_singleton; auto|].
      split; [intros p c Hp _; apply Hg4; by rewrite Hf3, Hf2|].
      split; [intros p Hp Hm _; apply Hno4; [by rewrite Hf3, Hf2|done]|]. done. }
  pose proof (placeMarkers_effect _ _ _ _ H4) as (Hd4 & Hv4 & Ht4 & Hg4 & Hno4).
  pose proof (placeMarkers_all_exist _ _ _ H4) as Hall4.
  destruct r as [[]|e].
  - pose proof (writeFileSync_effect _ _ _ _ _ Hrun) as (Hd5 & Hv5 & Ht5 & _ & _ & Hf5).
    split; [done|]. split; [done|].
    split; [by rewrite Hv5, Hv4, Hv3, Hv2|]. split; [by rewrite Ht5, Ht4, Ht3, Ht2|].
    split; [rewrite Hd5, Hd4, Hd3, Hd2, !elem_of_union, !elem_of_singleton; auto|].
    split.
    { intros p c Hp Hne. rewrite Hf5, lookup_insert_ne by done.
      apply Hg4. by rewrite Hf3, Hf2. }
    split.
    { intros p Hp Hm Hne. rewrite Hf5, lookup_insert_ne by done.
      apply Hno4; [by rewrite Hf3, Hf2|done]. }
    intros _. split; [rewrite Hd5, Hd4, Hd3, !elem_of_union, !elem_of_singleton; auto|]. split; [|split].
    + intros m Hm. specialize (Hall4 m Hm).
      apply existsSync_true in Hall4 as [[c Hc]|Hdir]; apply existsSync_true.
      * left. exists c. rewrite Hf5, lookup_insert_ne; [done|].
        intros Heq. apply markerPath_inj in Heq.
        by apply (marker_not_version m).
      * right. by rewrite Hd5.
    + intros m Hm Hnot.
      rewrite Hf5, lookup_insert_ne.
      2:{ intros Heq. apply markerPath_inj in Heq.
          by apply (marker_not_version m). }
      assert (existsSync (pathJoin (claudeVmBundle B) m) h3 = false) as Hnot3.
      { apply not_true_iff_false. rewrite existsSync_true.
        apply not_true_iff_false in Hnot. rewrite existsSync_true in Hnot.
        rewrite Hf3, Hf2, Hd3, Hd2. intros [Hs|Hin]; [tauto|].
        apply elem_of_union in Hin as [Hin|Hin].
        - apply elem_of_singleton in Hin. by apply markerPath_not_bundle in Hin.
        - apply elem_of_union in Hin as [Hin|Hin]; [|tauto].
          apply elem_of_singleton in Hin. by apply markerPath_not_tmp in Hin. }
      clear -H4 Hm Hnot3. revert h3 h4 H4 Hnot3.
      generalize markers Hm. intros ms. induction ms as [|m0 ms IH]; [done|].
      intros Hin h3 h4. cbn [placeMarkers]. unfold bind.
      destruct (placeMarker refuses B m0 h3) as [[[]|e] hx] eqn:Hm0; [|done].
      intros Hrest Hnot3.
      pose proof (placeMarker_effect _ _ _ _ Hm0) as (Hdx & _ & _ & Hrx).
      destruct (decide (m0 = m)) as [->|Hne].
      * destruct Hrx as [[Hex _]|[_ Hfx]]; [congruence|].
        pose proof (placeMarkers_effect _ _ _ _ Hrest) as (_ & _ & _ & Hg & _).
        apply Hg. rewrite Hfx. apply lookup_insert_eq.
      * destruct Hin as [?|Hin]; [done|].
        apply (IH Hin hx h4 Hrest).
        destruct Hrx as [[_ ->]|[_ Hfx]]; [done|].
        apply not_true_iff_false. rewrite existsSync_true.
        apply not_true_iff_false in Hnot3. rewrite existsSync_true in Hnot3.
        rewrite Hfx, Hdx. intros [Hs|Hd]; [|tauto].
        rewrite lookup_insert_ne in Hs; [tauto|].
        intros Heq. by apply markerPath_inj in Heq.
    + rewrite Hf5. apply lookup_insert_eq.
  - pose proof (writeFileSync_effect _ _ _ _ _ Hrun) as (_ & _ & _ & ->).
    split; [done|]. split; [done|].
    split; [by rewrite Hv4, Hv3, Hv2|]. split; [by rewrite Ht4, Ht3, Ht2|].
    split; [rewrite Hd4, Hd3, Hd2, !elem_of_union, !elem_of_singleton; auto|].
    split; [intros p c Hp _; apply Hg4; by rewrite Hf3, Hf2|].
    split; [intros p Hp Hm _; apply Hno4; [by rewrite Hf3, Hf2|done]|]. done.
Qed.




Lemma version_not_tmp : versionPath B <> vmTmpDir B.
Proof. apply markerPath_not_tmp. Qed.

Lemma version_not_bundle : versionPath B <> claudeVmBundle B.
Proof. apply markerPath_not_bundle. Qed.


(** When nothing is refused a pass over the markers cannot fail. *)
Lemma placeMarkers_succeeds ms : forall h,
  (forall p, refuses p = None) ->
  exists h', placeMarkers refuses B ms h = (Normal tt, h').
Proof.
  induction ms as [|m ms IH]; intros h Hall; cbn [placeMarkers]; [by eexists|].
  unfold bind.
  assert (exists h1, placeMarker refuses B m h = (Normal tt, h1)) as [h1 ->].
  { unfold placeMarker.
    destruct (existsSync (pathJoin (claudeVmBundle B) m) h) eqn:Hex; [by eexists|].
    assert (pathJoin (claudeVmBundle B) m ∉ dirs h) as Hnd.
    { intros Hin. apply not_true_iff_false in Hex. apply Hex.
      apply existsSync_true. by right. }
    unfold writeFileSync. rewrite Hall, bool_decide_eq_false_2 by done.
    destruct (String.eqb m "config.json"); by eexists. }
  by apply IH.
Qed.

End WithVerdicts.

(** X1. On files keyed by their path (no symbolic links): whatever the
    operating system refuses, the set-up never changes or removes a
    file that was there, the version file apart, and the only files it
    can create are the five markers and the version file. *)
Theorem setup_preserves_files (refuses : string -> option JsError) (B : string)
    (h : Host) (p : string) :
  p <> versionPath B ->
  (forall c, files h !! p = Some c ->
     files (snd (setup refuses B h)) !! p = Some c) /\
  (files h !! p = None ->
   (forall m, In m markers -> p <> pathJoin (claudeVmBundle B) m) ->
     files (snd (setup refuses B h)) !! p = None).
Proof.
  intros Hne. unfold setup.
  destruct (setupBody refuses B h) as [r h'] eqn:Hrun.
  assert (snd (match r with
               | Normal _ => (Fixed (vmTmpDir B), h')
               | Abrupt e => (SetupFailed (message e), h')
               end) = h') as -> by (by destruct r).
  destruct (setupBody_cases _ _ _ _ _ Hrun)
    as [(-> & _)|(_ & _ & _ & _ & _ & Hkeep & Hnone & _)]; [done|].
  split; [intros c Hc; by apply Hkeep | intros Hp Hm; by apply Hnone].
Qed.

Lemma setup_preserves_files_witness :
  files (snd (setup allows "/home/u/.config/Claude/vm_bundles"
                (withFiles {[ "/home/u/.config/Claude/vm_bundles/claudevm.bundle/vmlinux"
                              := "kernel" ]} emptyHost)))
    !! "/home/u/.config/Claude/vm_bundles/claudevm.bundle/vmlinux"
  = Some "kernel".
Proof.
  destruct (setup_preserves_files allows "/home/u/.config/Claude/vm_bundles"
              (withFiles {[ "/home/u/.config/Claude/vm_bundles/claudevm.bundle/vmlinux"
                            := "kernel" ]} emptyHost)
              "/home/u/.config/Claude/vm_bundles/claudevm.bundle/vmlinux")
    as [Hkeep _].
  - discriminate.
  - apply Hkeep. apply lookup_singleton_eq.
Defined.



(** X4. When the operating system refuses nothing and no file stands
    where the two directories go (nor a directory where the version file
    goes), the set-up succeeds: every marker exists afterwards, a marker
    that was missing holds the placeholder text (the JSON text for
    [config.json]), and the version file holds the fixed version. *)
Theorem setup_completes (B : string) (h : Host) :
  files h !! vmTmpDir B = None ->
  files h !! claudeVmBundle B = None ->
  versionPath B ∉ dirs h ->
  fst (setup allows B h) = Fixed (vmTmpDir B) /\
  (forall m, In m markers ->
     existsSync (pathJoin (claudeVmBundle B) m) (snd (setup allows B h)) = true) /\
  (forall m, In m markers ->
     existsSync (pathJoin (claudeVmBundle B) m) h = false ->
     files (snd (setup allows B h)) !! pathJoin (claudeVmBundle B) m
     = Some (if String.eqb m "config.json" then configJson else placeholder)) /\
  files (snd (setup allows B h)) !! versionPath B = Some versionText.
Proof.
  intros Hn1 Hn2 Hnd.
  assert (exists h', setupBody allows B h = (Normal tt, h')) as [h' Hrun].
  { unfold setupBody, bind, mkdirSync at 1, allows at 1. rewrite Hn1.
    match goal with
    | |- context [mkdirSync allows (claudeVmBundle B) ?s] => set (h2 := s)
    end.
    assert (files h2 = files h) as Hf2 by done.
    assert (dirs h2 = {[ vmTmpDir B ]} ∪ dirs h) as Hd2 by done.
    clearbody h2.
    unfold mkdirSync, allows at 1. rewrite Hf2, Hn2.
    match goal with
    | |- context [placeMarkers allows B markers ?s] => set (h3 := s)
    end.
    assert (dirs h3 = {[ claudeVmBundle B ]} ∪ ({[ vmTmpDir B ]} ∪ dirs h)) as Hd3
      by (subst h3; cbn; by rewrite Hd2).
    clearbody h3.
    destruct (placeMarkers_succeeds allows B markers h3) as [h4 H4]; [done|].
    rewrite H4.
    pose proof (placeMarkers_effect _ _ _ _ _ _ H4) as (Hd4 & _).
    unfold writeFileSync, allows at 1.
    rewrite bool_decide_eq_false_2; [by eexists|].
    rewrite Hd4, Hd3, !elem_of_union, !elem_of_singleton.
    intros [Hb|[Ht|Hd]]; [|  |done].
    - by apply version_not_bundle in Hb.
    - by apply version_not_tmp in Ht. }
  unfold setup. rewrite Hrun. cbn [fst snd].
  destruct (setupBody_cases _ _ _ _ _ Hrun)
    as [(_ & e & He & _)|(_ & _ & _ & _ & _ & _ & _ & Hok)]; [done|].
  destruct (Hok eq_refl) as (_ & Hall & Hfresh & Hver). done.
Qed.

Lemma setup_completes_witness :
  fst (setup allows "/home/u/.config/Claude/vm_bundles" emptyHost)
    = Fixed "/home/u/.config/Claude/vm_bundles/tmp" /\
  files (snd (setup allows "/home/u/.config/Claude/vm_bundles" emptyHost))
    !! "/home/u/.config/Claude/vm_bundles/claudevm.bundle/config.json"
  = Some configJson.
Proof.
  destruct (setup_completes "/home/u/.config/Claude/vm_bundles" emptyHost)
    as (Hrep & _ & Hfresh & _).
  - apply lookup_empty.
  - apply lookup_empty.
  - apply not_elem_of_empty.
  - split; [exact Hrep|].
    apply (Hfresh "config.json"); [cbn; tauto | reflexivity].
Defined.

End VmBundleFacts.

(** ** What the module interception never touches *)

Section LoaderFrameFacts.
Import Loader LoaderFrame.
Variable STUB_PATH : string.

Lemma framed_refl st : framed st st.
Proof. repeat split; done. Qed.

Lemma framed_trans st1 st2 st3 :
  framed st1 st2 -> framed st2 st3 -> framed st1 st3.
Proof.
  intros (Hp1 & Hd1 & Hn1 & Hl1 & Hc1) (Hp2 & Hd2 & Hn2 & Hl2 & Hc2).
  split; [congruence|]. split; [congruence|]. split; [lia|].
  split; [congruence|]. intros Hflag.
  rewrite Hc2 by congruence. by apply Hc1.
Qed.

Lemma runNested_framed load :
  Framing load ->
  forall requests st res st',
    runNested load requests st = Some (res, st') -> framed st st'.
Proof.
  intros Hload requests.
  induction requests as [|r rest IH]; intros st res st'; cbn [runNested].
  - intros [= _ <-]. apply framed_refl.
  - destruct (load r st) as [[[o|e] st1]|] eqn:Hr; [| |done].
    + intros Hrest. eapply framed_trans; [by eapply Hload|by eapply IH].
    + intros [= _ <-]. by eapply Hload.
Qed.

Lemma originalLoad_framing load :
  Framing load -> Framing (originalLoad load).
Proof.
  intros Hload request st res st'. unfold originalLoad.
  destruct (requireCache st !! request) as [o|].
  { intros [= _ <-]. apply framed_refl. }
  destruct (disk st !! request) as [file|].
  2:{ intros [= _ <-]. apply framed_refl. }
  cbn [alloc].
  match goal with
  | |- context [runNested load (nested file) ?s] => set (st2 := s)
  end.
  assert (framed st st2) as H02.
  { subst st2. repeat split; cbn; try done. lia. }
  assert (forall st3, framed st st3 ->
            framed st (setRequireCache (delete request (requireCache st3)) st3))
    as Hdel.
  { intros st3 (? & ? & ? & ? & ?). by repeat split. }
  assert (forall st3 r, framed st st3 -> framed st (setReplaced r st3)) as Hrep.
  { intros st3 r (? & ? & ? & ? & ?). by repeat split. }
  destruct (runNested load (nested file) st2) as [[[[]|e] st3]|] eqn:Hn; [| |done].
  - pose proof (runNested_framed load Hload _ _ _ _ Hn) as H23.
    pose proof (framed_trans _ _ _ H02 H23) as H03.
    destruct (failsInit file); [intros [= _ <-]; by apply Hdel|].
    destruct (replaces file); intros [= _ <-]; [by apply Hrep | done].
  - pose proof (runNested_framed load Hload _ _ _ _ Hn) as H23.
    pose proof (framed_trans _ _ _ H02 H23) as H03.
    intros [= _ <-]. by apply Hdel.
Qed.

Lemma Module_load_framing fuel : Framing (Module_load STUB_PATH fuel).
Proof.
  induction fuel as [|fuel IH]; intros request st res st'; [done|].
  cbn [Module_load].
  pose proof (originalLoad_framing _ IH) as Horig.
  destruct (loadingStub st) eqn:Hflag; [by apply Horig|].
  destruct (matchesSwiftAddon request).
  { unfold loadSwiftStub.
    destruct (cachedStub st) as [cached|] eqn:Hcache.
    { intros [= _ <-]. apply framed_refl. }
    destruct (disk st !! STUB_PATH).
    2:{ intros [= _ <-]. apply framed_refl. }
    match goal with
    | |- context [originalLoad ?l STUB_PATH ?s] =>
        destruct (originalLoad l STUB_PATH s) as [[[o|e] st3]|] eqn:Ho
    end; [| |done]; intros [= _ <-];
      apply Horig in Ho as (Hp & Hd & Hn & Hl & Hc); cbn in *;
      repeat split; cbn; try done; congruence. }
  destruct (matchesNativeBinding request).
  { cbn [alloc]. intros [= _ <-]. repeat split; cbn; try done; lia. }
  destruct (String.eqb request "electron"); [|by apply Horig].
  destruct (patchedElectron st); [|by apply Horig].
  intros [= _ <-]. apply framed_refl.
Qed.





(** X6. A request for the add-on made with an empty cache that ends in
    an error leaves the cache empty and the re-entrancy flag cleared (so
    the next such request tries again); when the substitute's file is
    missing the error is the loader's own and nothing at all has
    changed. *)
Theorem failed_substitute_not_cached (fuel : nat) (request : string)
    (st : LoaderState) :
  loadingStub st = false -> swiftStubCache st = None ->
  matchesSwiftAddon request = true ->
  (disk st !! STUB_PATH = None ->
     Module_load STUB_PATH (S fuel) request st
     = Some (Abrupt (mkError ("Swift stub not found: " +:+ STUB_PATH)), st)) /\
  (forall e st',
     Module_load STUB_PATH (S fuel) request st = Some (Abrupt e, st') ->
     swiftStubCache st' = None /\ loadingStub st' = false /\
     patchedElectron st' = patchedElectron st).
Proof.
  intros Hflag Hcache Hm.
  pose proof (cachedStub_None _ Hcache) as Hcs. split.
  - intros Hmissing. cbn [Module_load]. rewrite Hflag, Hm.
    unfold loadSwiftStub. by rewrite Hcs, Hmissing.
  - intros e st'. cbn [Module_load]. rewrite Hflag, Hm.
    unfold loadSwiftStub. rewrite Hcs.
    destruct (disk st !! STUB_PATH); [|by intros [= _ <-]].
    match goal with
    | |- context [originalLoad ?l STUB_PATH ?s] =>
        destruct (originalLoad l STUB_PATH s) as [[[o|e'] st3]|] eqn:Ho
    end; [done| |done].
    intros [= _ <-].
    apply (originalLoad_framing _ (Module_load_framing fuel)) in Ho
      as (Hp & _ & _ & _ & Hc).
    cbn in *. rewrite Hc by done. by rewrite Hcache.
Qed.


End LoaderFrameFacts.


Lemma failed_substitute_not_cached_witness :
  exists e st',
    Loader.Module_load Loader.demoStubPath 3 "swift_addon.node"
      (Loader.initial LoaderFrame.brokenStubDisk) = Some (Abrupt e, st') /\
    Loader.swiftStubCache st' = None /\ Loader.loadingStub st' = false /\
    Loader.Module_load Loader.demoStubPath 3 "swift_addon.node"
      (Loader.initial LoaderFrame.noStubDisk)
    = Some (Abrupt (mkError ("Swift stub not found: " +:+ Loader.demoStubPath)),
            Loader.initial LoaderFrame.noStubDisk).
Proof.
  assert (exists st',
            Loader.Module_load Loader.demoStubPath 3 "swift_addon.node"
              (Loader.initial LoaderFrame.brokenStubDisk)
            = Some (Abrupt (mkError "stub failed to start"), st')) as [st' Hout]
    by (eexists; vm_compute; reflexivity).
  destruct (failed_substitute_not_cached Loader.demoStubPath 2 "swift_addon.node"
              (Loader.initial LoaderFrame.brokenStubDisk) eq_refl eq_refl eq_refl)
    as [_ Hfail].
  destruct (Hfail _ _ Hout) as (Hc & Hl & _).
  destruct (failed_substitute_not_cached Loader.demoStubPath 2 "swift_addon.node"
              (Loader.initial LoaderFrame.noStubDisk) eq_refl eq_refl eq_refl)
    as [Hmissing _].
  eexists _, _. split; [exact Hout|]. split; [exact Hc|]. split; [exact Hl|].
  apply Hmissing. vm_compute. reflexivity.
Defined.


(** ** Further properties of the move fallback *)

Section MoveFrameFacts.
Import MoveFallback MoveFallback.NodeFs MoveEvents.

Lemma onStreamEvent_fold {FS : Type} (unlink : string -> FS -> option JsError * FS)
    (oldPath : string) (events : list StreamEvent) :
  forall (calls : Calls) (fs : FS),
    fold_left (fun acc ev => onStreamEvent FS unlink oldPath ev acc) events (calls, fs)
    = (calls ++ map streamReport events, unlinkPerClose unlink oldPath events fs).
Proof.
  induction events as [|ev events IH]; intros calls fs.
  - cbn. by rewrite app_nil_r.
  - cbn [fold_left map]. unfold unlinkPerClose. cbn [fold_left].
    destruct ev as [e|e|]; cbn [onStreamEvent streamReport].
    + rewrite IH. by rewrite <- app_assoc.
    + rewrite IH. by rewrite <- app_assoc.
    + destruct (unlink oldPath fs) as [ue fs'] eqn:Hu. rewrite IH.
      by rewrite <- app_assoc.
Qed.

Lemma rename_by_events {FS : Type}
    (pipe : string -> string -> FS -> list StreamEvent * FS)
    (unlink : string -> FS -> option JsError * FS)
    (oldPath newPath : string) (fs1 : FS) :
  (let (events, fs2) := pipe oldPath newPath fs1 in
   fold_left (fun acc ev => onStreamEvent FS unlink oldPath ev acc) events ([], fs2))
  = (map streamReport (fst (pipe oldPath newPath fs1)),
     unlinkPerClose unlink oldPath (fst (pipe oldPath newPath fs1))
       (snd (pipe oldPath newPath fs1))).
Proof.
  destruct (pipe oldPath newPath fs1) as [events fs2].
  by rewrite onStreamEvent_fold.
Qed.

(** X8. In the callback form, whatever the runtime's primitives are: a
    move that does not fail with the cross-device code calls back exactly
    once, with what the primitive reported; on the cross-device code the
    callback is invoked once per event of the two streams, in order (so
    twice, with the error and then with [null], when the write stream
    reports an error and then closes), and the source is unlinked once
    per closing of the write stream, whether or not an error was
    reported before. *)
Theorem rename_calls_back_per_event {FS : Type}
    (originalRename : string -> string -> FS -> option JsError * FS)
    (pipe : string -> string -> FS -> list StreamEvent * FS)
    (unlink : string -> FS -> option JsError * FS)
    (oldPath newPath : string) (fs : FS) :
  MoveFallback.rename FS originalRename pipe unlink oldPath newPath fs =
  match originalRename oldPath newPath fs with
  | (Some e, fs1) =>
      if isEXDEV e
      then (map streamReport (fst (pipe oldPath newPath fs1)),
            unlinkPerClose unlink oldPath (fst (pipe oldPath newPath fs1))
              (snd (pipe oldPath newPath fs1)))
      else ([Some e], fs1)
  | (None, fs1) => ([None], fs1)
  end.
Proof.
  unfold MoveFallback.rename.
  destruct (originalRename oldPath newPath fs) as [[e|] fs1]; [|done].
  destruct (isEXDEV e); [|done].
  by rewrite rename_by_events.
Qed.

(** On the runtime's files a refused write side loses the source. *)
Example refused_write_loses_source :
  NodeFs.rename refusedWrite "/tmp/rootfs.img" "/home/u/rootfs.img" stagedBundle
  = ([Some EACCES; None], ∅).
Proof. by vm_compute. Qed.

(** X9. On the runtime's files a move, in either form and however it
    ends, changes no path other than its source and its destination; and
    a synchronous move that throws leaves the source as it was. *)
Theorem move_touches_only_its_paths (env : Faults) (oldPath newPath : string)
    (fs : Files) :
  (forall p, p <> oldPath -> p <> newPath ->
     snd (NodeFs.renameSync env oldPath newPath fs) !! p = fs !! p /\
     snd (NodeFs.rename env oldPath newPath fs) !! p = fs !! p) /\
  (forall e fs', NodeFs.renameSync env oldPath newPath fs = (Abrupt e, fs') ->
     fs' !! oldPath = fs !! oldPath).
Proof.
  split.
  - intros p Ho Hn. split.
    + unfold NodeFs.renameSync. rewrite renameSync_cases.
      unfold originalRenameSync, copyFileSync, unlinkSync, bind, ret.
      destruct (renameFault env) as [e|].
      * destruct (isEXDEV e); [|done].
        destruct (copyFault env); [done|].
        destruct (fs !! oldPath); [|done].
        destruct (unlinkFault env); cbn [snd].
        { by rewrite lookup_insert_ne. }
        destruct (<[newPath:=s]> fs !! oldPath); cbn [snd].
        { by rewrite lookup_delete_ne, lookup_insert_ne. }
        by rewrite lookup_insert_ne.
      * destruct (fs !! oldPath); [|done]. cbn [snd].
        by rewrite lookup_insert_ne, lookup_delete_ne.
    + unfold NodeFs.rename, MoveFallback.rename.
      unfold originalRename, reported, originalRenameSync.
      destruct (renameFault env) as [e|].
      * destruct (isEXDEV e); [|done]. rewrite rename_by_events. cbn [snd].
        unfold pipe.
        assert (forall (g : Files), snd (unlink (unlinkFault env) oldPath g) !! p
                                    = g !! p) as Hu.
        { intros g. unfold unlink, reported, unlinkSync.
          destruct (unlinkFault env); [done|].
          destruct (g !! oldPath); [|done]. cbn. by rewrite lookup_delete_ne. }
        destruct (pipeFault env) as [|re|we]; cbn [fst snd].
        -- destruct (fs !! oldPath); cbn [fst snd unlinkPerClose fold_left].
           ++ by rewrite Hu, lookup_insert_ne.
           ++ by rewrite lookup_insert_ne.
        -- cbn [unlinkPerClose fold_left]. by rewrite lookup_insert_ne.
        -- cbn [unlinkPerClose fold_left]. by rewrite Hu.
      * destruct (fs !! oldPath); [|done]. cbn [snd].
        by rewrite lookup_insert_ne, lookup_delete_ne.
  - intros e fs'. unfold NodeFs.renameSync. rewrite renameSync_cases.
    unfold originalRenameSync, copyFileSync, unlinkSync, bind, ret.
    destruct (renameFault env) as [e0|].
    + destruct (isEXDEV e0); [|by intros [= _ <-]].
      destruct (copyFault env); [by intros [= _ <-]|].
      destruct (fs !! oldPath) as [c|] eqn:Hold; [|by intros [= _ <-]].
      destruct (unlinkFault env).
      { intros [= _ <-]. destruct (decide (newPath = oldPath)) as [->|?].
        - by rewrite lookup_insert_eq.
        - by rewrite lookup_insert_ne. }
      destruct (<[newPath:=c]> fs !! oldPath) eqn:Hl; [done|].
      intros [= _ <-]. destruct (decide (newPath = oldPath)) as [->|?].
      * by rewrite lookup_insert_eq in Hl.
      * rewrite lookup_insert_ne in Hl by done. congruence.
    + destruct (fs !! oldPath) eqn:Hold; [done|]. by intros [= _ <-].
Qed.

End MoveFrameFacts.

(** ** Further properties of the identity accessors *)

Section CallerFramesFacts.
Import Identity.

Lemma splitLines_cons_nolf f rest :
  lacks LF f = true ->
  splitLines (f +:+ String LF rest) = f :: splitLines rest.
Proof.
  induction f as [|c f IH]; intros Hf.
  - change (EmptyString +:+ String LF rest) with (String LF rest).
    cbn [splitLines]. by rewrite Ascii.eqb_refl.
  - cbn [lacks] in Hf. apply andb_true_iff in Hf as [Hc Hf].
    change (String c f +:+ String LF rest) with (String c (f +:+ String LF rest)).
    cbn [splitLines]. apply negb_true_iff in Hc. rewrite Hc.
    by rewrite IH.
Qed.

Lemma splitLines_nolf f : lacks LF f = true -> splitLines f = [f].
Proof.
  induction f as [|c f IH]; intros Hf; [done|].
  cbn [lacks] in Hf. apply andb_true_iff in Hf as [Hc Hf].
  cbn [splitLines]. apply negb_true_iff in Hc. rewrite Hc.
  by rewrite IH.
Qed.

(** Joining lines that contain no line feed and splitting again gives
    the lines back. *)
Lemma splitLines_joinLines (lines : list string) :
  lines <> [] -> Forall (fun f => lacks LF f = true) lines ->
  splitLines (joinLines lines) = lines.
Proof.
  induction lines as [|f lines IH]; intros Hne Hall; [done|].
  apply Forall_cons in Hall as [Hf Hall].
  destruct lines as [|g lines].
  - by apply splitLines_nolf.
  - change (joinLines (f :: g :: lines))
      with (f +:+ String LF (joinLines (g :: lines))).
    rewrite splitLines_cons_nolf by done. by rewrite IH.
Qed.

(** X10. For a stack printed as a header line, the accessor's own frame
    and the frames of the callers (no line containing a line feed), the
    text that is classified is exactly the callers' frames: the verdict
    of either classifier is the disjunction over those frames, so the
    accessor's own frame, which names the loader's file, never makes a
    caller trusted; and a stack of two lines or less is a guest's. *)
Theorem accessor_frame_never_counts (header accessor : string)
    (frames : list string) :
  lacks LF header = true -> lacks LF accessor = true ->
  Forall (fun f => lacks LF f = true) frames ->
  callerFrames (Some (joinLines (header :: accessor :: frames))) = joinLines frames /\
  Classifier.isSystemCall
    (callerFrames (Some (joinLines (header :: accessor :: frames))))
    = existsb Classifier.isSystemCall frames /\
  WrapperClassifier.isSystemCall
    (callerFrames (Some (joinLines (header :: accessor :: frames))))
    = existsb WrapperClassifier.isSystemCall frames /\
  Classifier.isSystemCall (callerFrames (Some (joinLines [header; accessor])))
    = false /\
  Classifier.isSystemCall (callerFrames (Some header)) = false.
Proof.
  intros Hh Ha Hf.
  assert (callerFrames (Some (joinLines (header :: accessor :: frames)))
          = joinLines frames) as Hcf.
  { unfold callerFrames. rewrite splitLines_joinLines; [done|done|].
    by repeat (apply List.Forall_cons; [done|]). }
  split; [done|]. rewrite Hcf.
  split; [apply isSystemCall_joinLines|].
  split; [apply wrapper_isSystemCall_joinLines|].
  split.
  - unfold callerFrames. rewrite splitLines_joinLines; [done|done|].
    by repeat (apply List.Forall_cons; [done|]).
  - unfold callerFrames. by rewrite splitLines_nolf.
Qed.

Lemma accessor_frame_never_counts_witness :
  Classifier.isSystemCall accessorFrame = true /\
  Classifier.isSystemCall (callerFrames guestStack) = false.
Proof.
  split; [reflexivity|].
  destruct (accessor_frame_never_counts "Error" accessorFrame
              ["    at App.start (/opt/claude/app/.vite/build/index.js:10:5)"]
              eq_refl eq_refl) as (_ & Hverdict & _).
  - repeat constructor.
  - unfold guestStack, stackOf. rewrite Hverdict. reflexivity.
Defined.

End CallerFramesFacts.

(** ** Further properties of the handler interception *)

Section ReRegistrationFacts.
Import Dispatch Dispatch.ElectronIpc.

(** X11. On the runtime's registry, for a channel that has a handler: a
    removal followed by a new registration installs the new handler
    (wrapped as the policy tables say at that moment) when the channel
    contains no force-override pattern; when it does, the removal has
    done nothing, so the new registration is refused as a second handler
    and the entry stays as it was.  This holds on both surfaces. *)
Theorem remove_then_register (wc : bool) (channel : string) (guest h : Handler)
    (reg : Registry) :
  reg !! channel = Some h ->
  (anyKeyMatches FORCE_OVERRIDES channel = true ->
     (if wc then wcHandle else handle) channel guest
       (snd (removeHandler channel reg))
     = (Abrupt (mkError ("Attempted to register a second handler for '"
                         +:+ channel +:+ "'")), reg)) /\
  (anyKeyMatches FORCE_OVERRIDES channel = false ->
     (if wc then wcHandle else handle) channel guest
       (snd (removeHandler channel reg))
     = (Normal tt,
        <[channel :=
            match firstMatch ERROR_FALLBACKS channel with
            | Some fallback =>
                (if wc then safeHandlerWc else safeHandler) guest fallback
            | None => guest
            end]> reg)).
Proof.
  intros Hreg. split; intros Hforce.
  - assert (snd (removeHandler channel reg) = reg) as ->.
    { unfold removeHandler, Dispatch.removeHandler. by rewrite Hforce. }
    destruct (handleWith_registers origHandle
                (if wc then safeHandlerWc else safeHandler) channel guest)
      as [eff Heff].
    assert ((if wc then wcHandle else handle) channel guest reg
            = origHandle channel eff reg) as ->.
    { destruct wc; unfold wcHandle, handle, Dispatch.wcHandle, Dispatch.handle;
        by rewrite Heff. }
    unfold origHandle. by rewrite Hreg.
  - assert (snd (removeHandler channel reg) = delete channel reg) as ->.
    { unfold removeHandler, Dispatch.removeHandler. by rewrite Hforce. }
    assert (firstMatch FORCE_OVERRIDES channel = None) as Hnone.
    { rewrite anyKeyMatches_firstMatch in Hforce.
      apply bool_decide_eq_false in Hforce.
      destruct (firstMatch FORCE_OVERRIDES channel); [|done].
      destruct Hforce. eauto. }
    destruct wc; unfold wcHandle, handle, Dispatch.wcHandle, Dispatch.handle,
      handleWith; rewrite Hnone;
      destruct (firstMatch ERROR_FALLBACKS channel);
      unfold origHandle; rewrite lookup_delete_eq;
      by rewrite insert_delete_eq.
Qed.

Lemma remove_then_register_witness :
  handle "$eipc_message$_88f6_$_AppFeatures_$_getFeatureFlags" guestAnswers
    (snd (removeHandler "$eipc_message$_88f6_$_AppFeatures_$_getFeatureFlags"
            {[ "$eipc_message$_88f6_$_AppFeatures_$_getFeatureFlags"
               := getFeatureFlags ]}))
  = (Abrupt (mkError ("Attempted to register a second handler for '"
                      +:+ "$eipc_message$_88f6_$_AppFeatures_$_getFeatureFlags"
                      +:+ "'")),
     {[ "$eipc_message$_88f6_$_AppFeatures_$_getFeatureFlags" := getFeatureFlags ]}).
Proof.
  destruct (remove_then_register false
              "$eipc_message$_88f6_$_AppFeatures_$_getFeatureFlags"
              guestAnswers getFeatureFlags
              {[ "$eipc_message$_88f6_$_AppFeatures_$_getFeatureFlags"
                 := getFeatureFlags ]}) as [Hforce _].
  - apply lookup_singleton_eq.
  - exact (Hforce eq_refl).
Defined.

End ReRegistrationFacts.

(** ** Further properties of the window-constructor interception *)

Section ConstructFacts.
Import Window.

Lemma assigned_idem e v slot : assigned e v (assigned e v slot) = assigned e v slot.
Proof. destruct slot as [[val [] c]|]; cbn; [done|done|]. by destruct e. Qed.

Lemma removed_idem slot : removed (removed slot) = removed slot.
Proof. by destruct slot as [[val w []]|]. Qed.

Lemma assign_idem key v o : assign key v (assign key v o) = assign key v o.
Proof.
  apply options_eq; [done|]. intros j. unfold assign. cbn [props extensible].
  destruct (decide (j = key)) as [->|Hne].
  - rewrite !lookup_partial_alter_eq. apply assigned_idem.
  - by rewrite !lookup_partial_alter_ne.
Qed.

Lemma normalized_not_overlay (o : Options) :
  frameIsFalse o && transparentSet o = false ->
  frameIsFalse
    (assign "autoHideMenuBar" (VBool true)
       (remove "trafficLightPosition"
          (remove "titleBarOverlay"
             (assign "frame" (VBool true)
                (assign "titleBarStyle" (VStr "default") o)))))
  && transparentSet
       (assign "autoHideMenuBar" (VBool true)
          (remove "trafficLightPosition"
             (remove "titleBarOverlay"
                (assign "frame" (VBool true)
                   (assign "titleBarStyle" (VStr "default") o)))))
  = false.
Proof.
  unfold frameIsFalse, transparentSet.
  rewrite !get_assign_ne, !get_remove_ne, (get_assign_ne "transparent"),
    (get_assign_ne "transparent") by done.
  intros Hov. unfold get at 1, assign. cbn [props extensible].
  rewrite lookup_partial_alter_eq, lookup_partial_alter_ne by done.
  unfold get at 1 in Hov.
  destruct (props o !! "frame") as [[val [] c]|]; cbn in *; try done.
  by destruct (extensible o).
Qed.

Lemma normalize_twice (o : Options) :
  assign "autoHideMenuBar" (VBool true)
    (remove "trafficLightPosition"
       (remove "titleBarOverlay"
          (assign "frame" (VBool true)
             (assign "titleBarStyle" (VStr "default")
                (assign "autoHideMenuBar" (VBool true)
                   (remove "trafficLightPosition"
                      (remove "titleBarOverlay"
                         (assign "frame" (VBool true)
                            (assign "titleBarStyle" (VStr "default") o)))))))))
  = assign "autoHideMenuBar" (VBool true)
      (remove "trafficLightPosition"
         (remove "titleBarOverlay"
            (assign "frame" (VBool true)
               (assign "titleBarStyle" (VStr "default") o)))).
Proof.
  apply options_eq; [done|]. intros j.
  unfold assign, remove. cbn [props extensible].
  destruct (decide (j = "autoHideMenuBar")) as [->|?].
  { repeat (rewrite lookup_partial_alter_eq
            || rewrite lookup_partial_alter_ne by done).
    apply assigned_idem. }
  destruct (decide (j = "trafficLightPosition")) as [->|?].
  { repeat (rewrite lookup_partial_alter_eq
            || rewrite lookup_partial_alter_ne by done).
    apply removed_idem. }
  destruct (decide (j = "titleBarOverlay")) as [->|?].
  { repeat (rewrite lookup_partial_alter_eq
            || rewrite lookup_partial_alter_ne by done).
    apply removed_idem. }
  destruct (decide (j = "frame")) as [->|?].
  { repeat (rewrite lookup_partial_alter_eq
            || rewrite lookup_partial_alter_ne by done).
    apply assigned_idem. }
  destruct (decide (j = "titleBarStyle")) as [->|?].
  { repeat (rewrite lookup_partial_alter_eq
            || rewrite lookup_partial_alter_ne by done).
    apply assigned_idem. }
  by rewrite !lookup_partial_alter_ne.
Qed.

(** X12. The trap is idempotent: passing the object it handed to the
    constructor through it again gives the same object, on any host and
    whatever the attributes of the object's properties (so also for a
    sealed or frozen object, on which some or all of the writes have no
    effect). *)
Theorem construct_idempotent (REAL_PLATFORM : string) (arg0 : option Options) :
  construct REAL_PLATFORM (Some (passed (construct REAL_PLATFORM arg0)))
  = construct REAL_PLATFORM arg0.
Proof.
  unfold construct.
  destruct (String.eqb REAL_PLATFORM "linux"); [|done].
  set (options := match arg0 with Some o => o | None => literal ∅ end).
  cbn [passed].
  destruct (frameIsFalse options && transparentSet options) eqn:Hov.
  - assert (frameIsFalse (assign "autoHideMenuBar" (VBool true) options)
            && transparentSet (assign "autoHideMenuBar" (VBool true) options)
            = true) as ->.
    { unfold frameIsFalse, transparentSet in *. by rewrite !get_assign_ne. }
    by rewrite assign_idem.
  - rewrite normalized_not_overlay by done. f_equal.
    apply normalize_twice.
Qed.

End ConstructFacts.

(** ** Properties of the patches to the runtime module *)

Section PatchFacts.
Import Patches.

Lemma assignAll_other table : forall (target : Object) key,
  ~ In key (map fst table) -> assignAll table target !! key = target !! key.
Proof.
  induction table as [|[k v] table IH]; intros target key Hnot; [done|].
  unfold assignAll. cbn [fold_left fst snd]. fold (assignAll table (<[k:=v]> target)).
  rewrite IH by (intros Hin; apply Hnot; by right).
  rewrite lookup_insert_ne; [done|]. intros ->. apply Hnot. by left.
Qed.

Lemma assignAll_entry table : forall (target : Object) key member,
  NoDup (map fst table) -> In (key, member) table ->
  assignAll table target !! key = Some member.
Proof.
  induction table as [|[k v] table IH]; intros target key member Hnd Hin; [done|].
  unfold assignAll. cbn [fold_left fst snd]. fold (assignAll table (<[k:=v]> target)).
  cbn [map fst] in Hnd. apply NoDup_cons in Hnd as [Hk Hnd].
  destruct Hin as [[= -> ->]|Hin].
  - rewrite assignAll_other; [apply lookup_insert_eq|].
    intros Hin. apply Hk. by apply list_elem_of_In.
  - by apply IH.
Qed.

Lemma patchedSysPrefs_keys : NoDup (map fst patchedSysPrefs).
Proof. apply (bool_decide_unpack _). by vm_compute. Qed.

(** X13. After the loop over the stand-ins for the system preferences,
    each of the listed names holds the loader's stand-in, whatever the
    runtime had under that name, and every other member is as it was;
    when the runtime has no system-preferences object, it still has none
    afterwards. *)
Theorem systemPreferences_patched (origSysPrefs : Object) (key : string) :
  (forall member, In (key, member) patchedSysPrefs ->
     patchSystemPreferences (Some origSysPrefs)
     = Some (assignAll patchedSysPrefs origSysPrefs) /\
     assignAll patchedSysPrefs origSysPrefs !! key = Some member) /\
  (~ In key (map fst patchedSysPrefs) ->
     assignAll patchedSysPrefs origSysPrefs !! key = origSysPrefs !! key) /\
  patchSystemPreferences None = None.
Proof.
  split; [|split; [|done]].
  - intros member Hin. split; [done|].
    apply assignAll_entry; [apply patchedSysPrefs_keys | done].
  - apply assignAll_other.
Qed.

Lemma assignMissing_cons k v table (proto : Object) :
  assignMissing ((k, v) :: table) proto
  = assignMissing table (if isFunction (proto !! k) then proto else <[k := v]> proto).
Proof. reflexivity. Qed.

Lemma assignMissing_other table : forall (proto : Object) key,
  ~ In key (map fst table) -> assignMissing table proto !! key = proto !! key.
Proof.
  induction table as [|[k v] table IH]; intros proto key Hnot; [done|].
  rewrite assignMissing_cons.
  rewrite IH by (intros Hin; apply Hnot; by right).
  destruct (isFunction (proto !! k)); [done|].
  rewrite lookup_insert_ne; [done|]. intros ->. apply Hnot. by left.
Qed.

Lemma assignMissing_function table : forall (proto : Object) key,
  isFunction (proto !! key) = true ->
  assignMissing table proto !! key = proto !! key.
Proof.
  induction table as [|[k v] table IH]; intros proto key Hfn; [done|].
  rewrite assignMissing_cons.
  destruct (isFunction (proto !! k)) eqn:Hk; [by apply IH|].
  assert (k <> key) as Hne by (intros ->; congruence).
  rewrite IH; rewrite lookup_insert_ne by done; done.
Qed.

Lemma assignMissing_filled table : forall (proto : Object) key member,
  NoDup (map fst table) -> In (key, member) table ->
  isFunction (proto !! key) = false ->
  assignMissing table proto !! key = Some member.
Proof.
  induction table as [|[k v] table IH]; intros proto key member Hnd Hin Hfn; [done|].
  rewrite assignMissing_cons.
  cbn [map fst] in Hnd. apply NoDup_cons in Hnd as [Hk Hnd].
  destruct Hin as [[= -> ->]|Hin].
  - rewrite Hfn. rewrite assignMissing_other; [apply lookup_insert_eq|].
    intros Hin. apply Hk. by apply list_elem_of_In.
  - assert (k <> key) as Hne.
    { intros ->. apply Hk. apply list_elem_of_In.
      apply in_map_iff. by exists (key, member). }
    apply IH; [done|done|].
    destruct (isFunction (proto !! k)); [done|].
    by rewrite lookup_insert_ne.
Qed.

Lemma assignMissing_noop table : forall (proto : Object),
  (forall key, In key (map fst table) -> isFunction (proto !! key) = true) ->
  assignMissing table proto = proto.
Proof.
  induction table as [|[k v] table IH]; intros proto Hall; [done|].
  rewrite assignMissing_cons, (Hall k) by (by left).
  apply IH. intros key Hin. apply Hall. by right.
Qed.

Lemma macOSWindowMethods_keys : NoDup (map fst macOSWindowMethods).
Proof. apply (bool_decide_unpack _). by vm_compute. Qed.

Lemma macOSWindowMethods_functions :
  Forall (fun entry => isFunction (Some (snd entry)) = true) macOSWindowMethods.
Proof. repeat constructor. Qed.

Lemma patched_prototype_has_all (proto : Object) key :
  In key (map fst macOSWindowMethods) ->
  isFunction (patchWindowPrototype proto !! key) = true.
Proof.
  intros Hin. apply in_map_iff in Hin as ([k member] & <- & Hin). cbn [fst].
  unfold patchWindowPrototype.
  destruct (isFunction (proto !! k)) eqn:Hfn.
  - by rewrite assignMissing_function.
  - rewrite (assignMissing_filled _ _ _ member)
      by (done || apply macOSWindowMethods_keys).
    pose proof macOSWindowMethods_functions as Hall.
    rewrite Forall_forall in Hall. apply list_elem_of_In in Hin.
    exact (Hall _ Hin).
Qed.

(** X14. Patching the window prototype never replaces a member that is
    a function; a listed method that is missing, or is not a function,
    becomes the loader's stand-in; afterwards every listed method is a
    function; members not listed are as they were; and patching again
    changes nothing. *)
Theorem window_prototype_patched (proto : Object) (key : string) :
  (isFunction (proto !! key) = true ->
     patchWindowPrototype proto !! key = proto !! key) /\
  (forall member, In (key, member) macOSWindowMethods ->
     isFunction (proto !! key) = false ->
     patchWindowPrototype proto !! key = Some member) /\
  (In key (map fst macOSWindowMethods) ->
     isFunction (patchWindowPrototype proto !! key) = true) /\
  (~ In key (map fst macOSWindowMethods) ->
     patchWindowPrototype proto !! key = proto !! key) /\
  patchWindowPrototype (patchWindowPrototype proto) = patchWindowPrototype proto.
Proof.
  split; [apply assignMissing_function|].
  split; [intros member Hin Hfn; apply assignMissing_filled;
          [apply macOSWindowMethods_keys|done|done]|].
  split; [apply patched_prototype_has_all|].
  split; [apply assignMissing_other|].
  apply assignMissing_noop. intros k Hk. by apply patched_prototype_has_all.
Qed.

End PatchFacts.

(** ** Properties of the menu filter *)

Section MenuFacts.
Import Menu.

Lemma keepSub_filter_clean (subs : list (option MenuItem)) :
  Forall (fun sub => exists s, sub = Some s /\ macOnlyRole (roleOf s) = false)
    (List.filter keepSub subs).
Proof.
  apply Forall_forall. intros sub Hin.
  apply list_elem_of_In, filter_In in Hin as [_ Hkeep].
  destruct sub as [s|]; [|done]. exists s. split; [done|].
  by apply negb_true_iff in Hkeep.
Qed.

Lemma filter_keepSub_idem (subs : list (option MenuItem)) :
  List.filter keepSub (List.filter keepSub subs) = List.filter keepSub subs.
Proof.
  induction subs as [|sub subs IH]; [done|]. cbn [List.filter].
  destruct (keepSub sub) eqn:Hk; [|done]. cbn [List.filter]. by rewrite Hk, IH.
Qed.

Lemma mapItem_result item i :
  mapItem item = Some i ->
  macOnlyRole (roleOf i) = false /\ cleanSubmenu i /\ mapItem (Some i) = Some i.
Proof.
  unfold mapItem.
  set (filtered := match item with Some i0 => i0 | None => Item None [] NoSubmenu end).
  destruct (macOnlyRole (roleOf filtered)) eqn:Hrole; [done|].
  destruct filtered as [r rest [|v|subs]] eqn:Hf; intros [= <-]; cbn in *.
  - by rewrite Hrole.
  - by rewrite Hrole.
  - rewrite Hrole. split; [done|]. split; [apply keepSub_filter_clean|].
    by rewrite filter_keepSub_idem.
Qed.

(** X15. What reaches the original [buildFromTemplate]: no item with
    the role ['services'] or ['recentDocuments'], and in the submenu
    array of an item no missing entry and no entry with one of these
    roles; it is never longer than the template; filtering it again
    changes nothing; a missing template gives the empty list. *)
Theorem filteredTemplate_clean (template : option (list (option MenuItem))) :
  Forall (fun i => macOnlyRole (roleOf i) = false /\ cleanSubmenu i)
    (filteredTemplate template) /\
  length (filteredTemplate template)
    <= length (match template with Some t => t | None => [] end) /\
  filteredTemplate (Some (map Some (filteredTemplate template)))
    = filteredTemplate template /\
  filteredTemplate None = [].
Proof.
  unfold filteredTemplate.
  set (t := match template with Some t => t | None => [] end).
  split; [|split; [|split; [|done]]].
  - apply Forall_forall. intros i Hin.
    apply list_elem_of_omap in Hin as (item & _ & Hmap).
    apply mapItem_result in Hmap as (? & ? & _). done.
  - clearbody t. induction t as [|item t IH]; [done|]. cbn.
    destruct (mapItem item); cbn; lia.
  - assert (Forall (fun i => mapItem (Some i) = Some i) (omap mapItem t)) as Hfix.
    { apply Forall_forall. intros i Hin.
      apply list_elem_of_omap in Hin as (item & _ & Hmap).
      by apply mapItem_result in Hmap as (_ & _ & ?). }
    induction Hfix as [|i l Hi _ IH]; [done|]. cbn. by rewrite Hi, IH.
Qed.

(** The filter looks one level down and no further, and a missing
    entry at the top is turned into an empty item. *)
Example filteredTemplate_depth :
  filteredTemplate
    (Some [ None;
            Some (Item (Some "services") [] NoSubmenu);
            Some (Item None [("label", VStr "File")]
                    (Entries [ None;
                               Some (Item (Some "recentDocuments") [] NoSubmenu);
                               Some (Item None []
                                       (Entries [Some (Item (Some "services") []
                                                         NoSubmenu)])) ])) ])
  = [ Item None [] NoSubmenu;
      Item None [("label", VStr "File")]
        (Entries [ Some (Item None []
                           (Entries [Some (Item (Some "services") [] NoSubmenu)])) ]) ].
Proof. reflexivity. Qed.

(** [Menu.setApplicationMenu] as replaced by the loader never throws: whatever
    the original does with the menu, the call returns normally, in the
    state the original left. *)
Lemma setApplicationMenu_never_throws {W : Type}
    (orig : option (JsValue -> M W unit)) (menu : JsValue) (w : W) :
  fst (setApplicationMenu orig menu w) = Normal tt /\
  snd (setApplicationMenu orig menu w)
  = match orig with Some f => snd (f menu w) | None => w end.
Proof.
  unfold setApplicationMenu, tryCatch, ret.
  destruct orig as [f|]; [|done].
  by destruct (f menu w) as [[[]|e] w'].
Qed.

End MenuFacts.

(** ** Properties of the header rewriting *)

Section HeaderFacts.
Import Headers.


End HeaderFacts.

(** ** Properties of the secondary layer *)

Section WrapperFacts.
Import Dispatch Wrapper.

Lemma splitAux_nonempty sep s k : splitAux sep s k <> [].
Proof.
  revert k. induction s as [|c s IH]; intros k; cbn [splitAux]; [done|].
  destruct k as [|k]; [|apply IH].
  destruct (String.prefix sep (String c s)); [done|].
  by destruct (splitAux sep s 0).
Qed.

Lemma dropChars_app pre post : dropChars (String.length pre) (pre +:+ post) = post.
Proof.
  induction pre as [|c pre IH]; [done|].
  change (String c pre +:+ post) with (String c (pre +:+ post)).
  cbn [String.length dropChars]. exact IH.
Qed.

(** Splitting at a non-empty separator and joining with it gives the
    text back. *)
Lemma concat_splitAux sep s : sep <> EmptyString ->
  forall k, String.concat sep (splitAux sep s k) = dropChars k s.
Proof.
  intros Hsep. induction s as [|c s IH]; intros k.
  - by destruct k.
  - cbn [splitAux]. destruct k as [|k]; [|by rewrite IH].
    cbn [dropChars].
    destruct (String.prefix sep (String c s)) eqn:Hp.
    + destruct (prefix_inv _ _ Hp) as [post Hpost].
      destruct sep as [|c0 sep']; [done|].
      change (String c0 sep' +:+ post) with (String c0 (sep' +:+ post)) in Hpost.
      injection Hpost as -> ->.
      replace (String.length (String c0 sep') - 1) with (String.length sep')
        by (cbn [String.length]; lia).
      pose proof (splitAux_nonempty (String c0 sep') (sep' +:+ post)
                    (String.length sep')) as Hne.
      destruct (splitAux (String c0 sep') (sep' +:+ post) (String.length sep'))
        as [|piece pieces] eqn:Hs; [done|].
      change (String.concat (String c0 sep') (EmptyString :: piece :: pieces))
        with (String c0 (sep' +:+ String.concat (String c0 sep') (piece :: pieces))).
      rewrite <- Hs, IH, dropChars_app. done.
    + pose proof (splitAux_nonempty sep s 0) as Hne.
      specialize (IH 0). cbn [dropChars] in IH.
      destruct (splitAux sep s 0) as [|piece pieces]; [done|].
      rewrite <- IH. by destruct pieces.
Qed.

Lemma concat_split s sep :
  sep <> EmptyString -> String.concat sep (split s sep) = s.
Proof. intros Hsep. unfold split. by rewrite concat_splitAux. Qed.



(** X18. With the wrapper's registration entry point installed in front
    of the loader's, a channel that contains ['ClaudeVM'], a fallback
    pattern and no force-override pattern is registered with the loader's
    fallback wrapper around the wrapper's handler; as the inner one never
    fails, the registered handler behaves exactly like the wrapper's
    handler and the loader's fallback is never used: a failing guest
    handler yields the wrapper's answer ([null], or the wrapper's
    constant), not the fallback's. *)
Theorem vm_fallback_unreachable {R : Type}
    (orig : string -> Handler -> M R unit)
    (channel : string) (guest fallback : Handler) :
  includes channel "ClaudeVM" = true ->
  firstMatch FORCE_OVERRIDES channel = None ->
  firstMatch ERROR_FALLBACKS channel = Some fallback ->
  Wrapper.handle (Dispatch.handle R orig) channel guest
    = orig channel (safeHandler (wrappedHandler channel guest) fallback) /\
  (forall args,
     safeHandler (wrappedHandler channel guest) fallback args
     = wrappedHandler channel guest args).
Proof.
  intros Hvm Hforce Hfall. split.
  - unfold Wrapper.handle. rewrite Hvm.
    unfold Dispatch.handle, handleWith. by rewrite Hforce, Hfall.
  - intros args. unfold safeHandler.
    destruct (wrappedHandler channel guest args) as [v|e|] eqn:Hw; [done| |done].
    by destruct (wrappedHandler_never_rejects channel guest args e).
Qed.

Lemma vm_fallback_unreachable_witness :
  ElectronIpc.invoke
    (snd (Wrapper.handle ElectronIpc.handle
            "$eipc_message$_88f6_$_ClaudeVM_$_start" guestFails ∅))
    "$eipc_message$_88f6_$_ClaudeVM_$_start" [VNull]
  = Some (Fulfilled VNull).
Proof.
  destruct (vm_fallback_unreachable ElectronIpc.origHandle
              "$eipc_message$_88f6_$_ClaudeVM_$_start" guestFails
              (fun _ => Fulfilled (VObject [("started", VBool true);
                                            ("status", VStr "running")]))
              eq_refl eq_refl eq_refl) as [Hreg Hsame].
  unfold ElectronIpc.handle. rewrite Hreg.
  unfold ElectronIpc.origHandle, ElectronIpc.invoke.
  rewrite lookup_empty. cbn [snd]. rewrite lookup_insert_eq.
  by rewrite Hsame.
Defined.

Lemma quietly_normal {W : Type} (m : M W unit) (w : W) :
  quietly m w = (Normal tt, snd (quietly m w)).
Proof.
  unfold quietly, tryCatch, ret. by destruct (m w) as [[[]|err] w'].
Qed.

Lemma setApplicationMenu_linux {W : Type}
    (orig : option (JsValue -> M W unit)) (hideAll : M W unit)
    (menu : JsValue) (w : W) :
  Wrapper.setApplicationMenu "linux" orig hideAll menu w
  = (Normal tt,
     snd (quietly hideAll
            (snd (quietly (match orig with Some f => f menu | None => ret tt end)
                    w)))).
Proof.
  unfold Wrapper.setApplicationMenu, bind.
  rewrite quietly_normal. change (String.eqb "linux" "linux") with true.
  cbv iota. apply quietly_normal.
Qed.

Lemma menu_after_requires {R W : Type} (hideAll : M W unit) (e : Electron R W)
    (n : nat) :
  exists f,
    menuSetApplicationMenu (Nat.iter (S n) (onRequireElectron "linux" hideAll) e)
      = Some f /\
    forall menu w,
      f menu w
      = (Normal tt,
         Nat.iter (S n) (fun w' => snd (quietly hideAll w'))
           (snd (quietly (match menuSetApplicationMenu e with
                          | Some g => g menu
                          | None => ret tt
                          end) w))).
Proof.
  induction n as [|n (f1 & Hf1 & IH)].
  - eexists. split; [reflexivity|]. intros menu w.
    apply setApplicationMenu_linux.
  - change (Nat.iter (S (S n)) (onRequireElectron "linux" hideAll) e)
      with (onRequireElectron "linux" hideAll
              (Nat.iter (S n) (onRequireElectron "linux" hideAll) e)).
    unfold onRequireElectron at 1. cbn [menuSetApplicationMenu].
    eexists. split; [reflexivity|]. intros menu w.
    rewrite setApplicationMenu_linux, Hf1.
    unfold quietly at 2, tryCatch at 1. rewrite IH. reflexivity.
Qed.

(** X19. However often ['electron'] is required through the hook, the
    registration entry point is wrapped exactly once; the menu entry
    point is wrapped once per require, so on a Linux host a call to it
    never throws, runs the original once, and then passes over the
    windows once per require that went through the hook. *)
Theorem require_electron_repeated {R W : Type} (hideAll : M W unit)
    (e : Electron R W) (n : nat)
    (originalHandle : string -> Handler -> M R unit) :
  coworkIPCPatched e = false ->
  ipcMainHandle e = Some originalHandle ->
  ipcMainHandle (Nat.iter (S n) (onRequireElectron "linux" hideAll) e)
    = Some (Wrapper.handle originalHandle) /\
  coworkIPCPatched (Nat.iter (S n) (onRequireElectron "linux" hideAll) e) = true /\
  exists f,
    menuSetApplicationMenu (Nat.iter (S n) (onRequireElectron "linux" hideAll) e)
      = Some f /\
    forall menu w,
      f menu w
      = (Normal tt,
         Nat.iter (S n) (fun w' => snd (quietly hideAll w'))
           (snd (quietly (match menuSetApplicationMenu e with
                          | Some g => g menu
                          | None => ret tt
                          end) w))).
Proof.
  intros Hflag Hipc.
  assert (ipcMainHandle (Nat.iter (S n) (onRequireElectron "linux" hideAll) e)
            = Some (Wrapper.handle originalHandle) /\
          coworkIPCPatched (Nat.iter (S n) (onRequireElectron "linux" hideAll) e)
            = true) as [Hh Hf].
  { induction n as [|n [IHh IHf]].
    - change (Nat.iter 1 (onRequireElectron "linux" hideAll) e)
        with (onRequireElectron "linux" hideAll e).
      unfold onRequireElectron.
      cbn [ipcMainHandle coworkIPCPatched]. by rewrite Hipc, Hflag.
    - change (Nat.iter (S (S n)) (onRequireElectron "linux" hideAll) e)
        with (onRequireElectron "linux" hideAll
                (Nat.iter (S n) (onRequireElectron "linux" hideAll) e)).
      unfold onRequireElectron at 1 3. cbn [ipcMainHandle coworkIPCPatched].
      by rewrite IHh, IHf. }
  split; [exact Hh|]. split; [exact Hf|]. apply menu_after_requires.
Qed.

Lemma require_electron_repeated_witness :
  exists f,
    menuSetApplicationMenu
      (Nat.iter 3 (onRequireElectron (R := unit) "linux" countingHide)
         {| coworkIPCPatched := false;
            ipcMainHandle := Some (fun _ _ => ret tt);
            menuSetApplicationMenu := Some (fun _ => throw (mkError "no menu")) |})
    = Some f /\
    f VNull 0 = (Normal tt, 3).
Proof.
  destruct (require_electron_repeated (R := unit) countingHide
              {| coworkIPCPatched := false;
                 ipcMainHandle := Some (fun _ _ => ret tt);
                 menuSetApplicationMenu := Some (fun _ => throw (mkError "no menu")) |}
              2 (fun _ _ => ret tt) eq_refl eq_refl) as (_ & _ & f & Hf & Hmenu).
  exists f. split; [exact Hf|]. rewrite Hmenu. reflexivity.
Defined.

Lemma vmOverrides_keys : NoDup (map fst vmOverrides).
Proof. apply (bool_decide_unpack _). by vm_compute. Qed.

Lemma assignAll_idem table (target : Patches.Object) :
  NoDup (map fst table) ->
  Patches.assignAll table (Patches.assignAll table target)
  = Patches.assignAll table target.
Proof.
  intros Hnd. apply map_eq. intros key.
  destruct (decide (key ∈ map fst table)) as [Hin|Hnot].
  - apply list_elem_of_In, in_map_iff in Hin as ([k member] & <- & Hin). cbn [fst].
    by rewrite !(assignAll_entry _ _ _ member).
  - rewrite !assignAll_other; [done|by rewrite <- list_elem_of_In..].
Qed.

(** X20. For a module required under a name containing
    ['@ant/claude-swift']: when it has a [vm] member, that member's
    [getStatus], [getSupportStatus] and [isSupported] are the wrapper's
    stand-ins, every other member of [vm] is as the module defined it,
    and requiring the module again leaves it as the first time; a module
    without [vm] is returned untouched. *)
Theorem swift_vm_patched (members : Patches.Object) (key : string) :
  (forall member, In (key, member) vmOverrides ->
     Patches.assignAll vmOverrides members !! key = Some member) /\
  (~ In key (map fst vmOverrides) ->
     Patches.assignAll vmOverrides members !! key = members !! key) /\
  patchSwiftVm (patchSwiftVm (Some members)) = patchSwiftVm (Some members) /\
  patchSwiftVm None = None.
Proof.
  split; [|split; [|split; [|done]]].
  - intros member Hin. apply assignAll_entry; [apply vmOverrides_keys|done].
  - apply assignAll_other.
  - unfold patchSwiftVm. f_equal. apply assignAll_idem, vmOverrides_keys.
Qed.

End WrapperFacts.
